(** * OpenTESArena world generation: a shallow embedding of the level decoder
      (LevelData.cpp) and of the exterior generators (ExteriorLevelData.cpp),
      with the properties of the design specification stated over them. *)

From Stdlib Require Import ZArith List Bool String Ascii Lia.
From stdpp Require Import base option list gmap strings pretty.
From Stdlib Require QArith.QArith_base QArith.Qminmax.

Open Scope Z_scope.

(** ** Loops

    The C++ [for (int i = lo; i < hi; i++)] over a body that may abort
    (out-of-range access, failed assertion, crash) is a bounded iteration in
    the option monad. *)

Fixpoint for_loop {St : Type} (n : nat) (i : Z) (body : Z → St → option St) (s : St)
  : option St :=
  match n with
  | O => Some s
  | S n' =>
      match body i s with
      | Some s' => for_loop n' (i + 1) body s'
      | None => None
      end
  end.

(** [for (i = lo; i < hi; i++)] *)
Definition forZ {St : Type} (lo hi : Z) (body : Z → St → option St) (s : St) : option St :=
  for_loop (Z.to_nat (hi - lo)) lo body s.

(** [for (i = hi - 1; i >= 0; i--)] *)
Definition forZ_down {St : Type} (hi : Z) (body : Z → St → option St) (s : St) : option St :=
  for_loop (Z.to_nat hi) 0 (fun j => body (hi - 1 - j)) s.

(** ** 16-bit words as they sit in the layer arrays *)


(** [Bytes::getLE16]: two bytes, least significant first. *)
Definition getLE16 (b0 b1 : Z) : Z := Z.lor b0 (Z.shiftl b1 8).

(** The two bytes a little-endian host stores for one [uint16_t]. *)
Definition le_bytes (v : Z) : Z * Z := (Z.land v 0xFF, Z.land (Z.shiftr v 8) 0xFF).

(** Reading element [index] of a [uint16_t] array through its bytes; [None]
    is a read outside the array. *)
Definition readLE16 (arr : list Z) (index : Z) : option Z :=
  if index <? 0 then None
  else match arr !! Z.to_nat index with
       | Some v => let '(b0, b1) := le_bytes v in Some (getLE16 b0 b1)
       | None => None
       end.

(** ** Random numbers

    [ArenaRandom] (Math/Random.h) is used through its constructor / [srand]
    and through [next]; the generators below are written against that
    interface. *)

Class ArenaRandom (R : Type) := {
  srand : Z → R;
  next : R → Z * R
}.

(** ** Voxel definitions *)

(** Floating-point arithmetic of the raised-platform and edge decoders is
    kept abstract. *)
Class DoubleOps (D : Type) := {
  d_of_int : Z → D;
  d_div : D → D → D;
  d_add : D → D → D;
  d_sub : D → D → D;
  d_max : D → D → D;
  d_min : D → D → D
}.

Inductive ChasmType := Dry | Lava | Wet.
Inductive WallType := Solid | LevelUp | LevelDown | Menu.
Inductive DoorType := Swinging | Sliding | Raising.
Inductive Facing := PositiveX | NegativeX | PositiveZ | NegativeZ.

(** Modelled from the spec: VoxelData (VoxelDefinition), the tagged variant
    of section 3, one constructor per [VoxelData::make...] call of
    LevelData.cpp with the arguments of that call. *)
Inductive VoxelData (D : Type) : Type :=
| Floor (id : Z)
| Wall (sideID floorID ceilingID : Z) (menuID : option Z) (type : WallType)
| Raised (sideID floorID ceilingID : Z) (yOffset ySize vTop vBottom : D)
| TransparentWall (id : Z) (collider : bool)
| Edge (id : Z) (yOffset : D) (collider flipped : bool) (facing : Facing)
| Door (id : Z) (type : DoorType)
| Diagonal (id : Z) (isRightDiag : bool)
| Chasm (id : Z) (north east south west : bool) (type : ChasmType)
| Ceiling (id : Z).

Arguments Floor {D} id.
Arguments Wall {D} sideID floorID ceilingID menuID type.
Arguments Raised {D} sideID floorID ceilingID yOffset ySize vTop vBottom.
Arguments TransparentWall {D} id collider.
Arguments Edge {D} id yOffset collider flipped facing.
Arguments Door {D} id type.
Arguments Diagonal {D} id isRightDiag.
Arguments Chasm {D} id north east south west type.
Arguments Ceiling {D} id.

Definition isChasmData {D} (d : VoxelData D) : bool :=
  match d with Chasm _ _ _ _ _ _ => true | _ => false end.

Definition chasmTypeOf {D} (d : VoxelData D) : option ChasmType :=
  match d with Chasm _ _ _ _ _ t => Some t | _ => None end.

(** The parts of an .INF file the decoder asks for (Assets/INFFile.h). *)
Record INFFile := {
  getDryChasmIndex : option Z;
  getLavaChasmIndex : option Z;
  getWetChasmIndex : option Z;
  getMenuIndex : Z → Z;
  getLevelUpIndex : option Z;
  getLevelDownIndex : option Z;
  getBoxSide : Z → option Z;
  getBoxCap : Z → option Z;
  ceiling_textureIndex : option Z;
  ceiling_boxScale : option Z;
  ceiling_height : Z
}.

(** [ExeData::wallHeightTables]. *)
Record WallHeightTables := {
  box1a : list Z; box1b : list Z; box1c : list Z;
  box2a : list Z; box2b : list Z
}.

Inductive WorldType := City | Interior | Wilderness.

(** Constants of Assets/MIFFile.h: the three chasm texture IDs. *)
Record MIFConstants := {
  DRY_CHASM : Z;
  LAVA_CHASM : Z;
  WET_CHASM : Z
}.

(** [std::vector::at]: [None] is the out-of-range exception. *)
Definition at_ {A} (l : list A) (i : Z) : option A :=
  if i <? 0 then None else l !! Z.to_nat i.

(** ** Level state *)

Definition AdjacentFaces : Type := bool * bool * bool * bool.

Record LevelData (D : Type) := mkLevelData {
  voxels : gmap (Z * Z * Z) Z;
  voxelDatas : list (VoxelData D);
  floorDataMappings : list (Z * Z);
  chasmDataMappings : list (Z * AdjacentFaces * Z);
  wallDataMappings : list (Z * Z);
  map2DataMappings : list (Z * Z);
  flatsLists : list (Z * list (Z * Z))
}.

Arguments mkLevelData {D}.
Arguments voxels {D}.
Arguments voxelDatas {D}.
Arguments floorDataMappings {D}.
Arguments chasmDataMappings {D}.
Arguments wallDataMappings {D}.
Arguments map2DataMappings {D}.
Arguments flatsLists {D}.

Definition emptyLevel {D} : LevelData D :=
  mkLevelData ∅ [] [] [] [] [] [].

(** [std::find_if] over a vector of (key, index) pairs: the first pair whose
    key satisfies the predicate. *)
Fixpoint find_if {K V : Type} (p : K → bool) (l : list (K * V)) : option V :=
  match l with
  | [] => None
  | (k, v) :: l' => if p k then Some v else find_if p l'
  end.

Definition faces_eqb (a b : AdjacentFaces) : bool :=
  let '(a0, a1, a2, a3) := a in
  let '(b0, b1, b2, b3) := b in
  Bool.eqb a0 b0 && Bool.eqb a1 b1 && Bool.eqb a2 b2 && Bool.eqb a3 b3.

(** ** Facts about loops and [find_if] *)

Lemma for_loop_inv {St : Type} (P : Z → St → Prop) (body : Z → St → option St) :
  ∀ (n : nat) (i : Z) (s s' : St),
    for_loop n i body s = Some s' →
    P i s →
    (∀ j t t', i ≤ j < i + Z.of_nat n → P j t → body j t = Some t' → P (j + 1) t') →
    P (i + Z.of_nat n) s'.
Proof.
  induction n as [|n IH]; intros i s s' Hrun Hi Hstep; simpl in Hrun.
  - injection Hrun as <-. by replace (i + Z.of_nat 0) with i by lia.
  - destruct (body i s) as [s1|] eqn:Hb; [|done].
    replace (i + Z.of_nat (S n)) with ((i + 1) + Z.of_nat n) by lia.
    apply (IH (i + 1) s1 s' Hrun).
    + apply (Hstep i s s1); [lia|done|done].
    + intros j t t' Hj. apply Hstep. lia.
Qed.

Lemma for_loop_total {St : Type} (P : Z → St → Prop) (body : Z → St → option St) :
  ∀ (n : nat) (i : Z) (s : St),
    P i s →
    (∀ j t, i ≤ j < i + Z.of_nat n → P j t → ∃ t', body j t = Some t' ∧ P (j + 1) t') →
    ∃ s', for_loop n i body s = Some s' ∧ P (i + Z.of_nat n) s'.
Proof.
  induction n as [|n IH]; intros i s Hi Hstep; simpl.
  - exists s. split; [done|]. by replace (i + Z.of_nat 0) with i by lia.
  - destruct (Hstep i s) as (s1 & Hb & H1); [lia|done|]. rewrite Hb.
    replace (i + Z.of_nat (S n)) with ((i + 1) + Z.of_nat n) by lia.
    apply IH; [done|]. intros j t Hj. apply Hstep. lia.
Qed.

Lemma forZ_inv {St : Type} (P : Z → St → Prop) (body : Z → St → option St)
    (lo hi : Z) (s s' : St) :
  lo ≤ hi →
  forZ lo hi body s = Some s' →
  P lo s →
  (∀ j t t', lo ≤ j < hi → P j t → body j t = Some t' → P (j + 1) t') →
  P hi s'.
Proof.
  intros Hle Hrun Hlo Hstep. unfold forZ in Hrun.
  replace hi with (lo + Z.of_nat (Z.to_nat (hi - lo))) by lia.
  eapply for_loop_inv; [exact Hrun|exact Hlo|].
  intros j t t' Hj. apply Hstep. lia.
Qed.

Lemma forZ_total {St : Type} (P : Z → St → Prop) (body : Z → St → option St)
    (lo hi : Z) (s : St) :
  lo ≤ hi →
  P lo s →
  (∀ j t, lo ≤ j < hi → P j t → ∃ t', body j t = Some t' ∧ P (j + 1) t') →
  ∃ s', forZ lo hi body s = Some s' ∧ P hi s'.
Proof.
  intros Hle Hlo Hstep. unfold forZ.
  destruct (for_loop_total P body (Z.to_nat (hi - lo)) lo s Hlo) as (s' & Hrun & Hs').
  - intros j t Hj. apply Hstep. lia.
  - exists s'. split; [done|].
    by replace hi with (lo + Z.of_nat (Z.to_nat (hi - lo))) by lia.
Qed.

Lemma forZ_empty {St : Type} (body : Z → St → option St) (lo hi : Z) (s : St) :
  hi ≤ lo → forZ lo hi body s = Some s.
Proof. intros Hle. unfold forZ. by replace (Z.to_nat (hi - lo)) with O by lia. Qed.

Lemma find_if_app {K V : Type} (p : K → bool) (l l' : list (K * V)) :
  find_if p (l ++ l') =
  match find_if p l with Some v => Some v | None => find_if p l' end.
Proof.
  induction l as [|[k v] l IH]; simpl; [done|]. by destruct (p k).
Qed.

Lemma find_if_Some {K V : Type} (p : K → bool) (l : list (K * V)) (v : V) :
  find_if p l = Some v → ∃ k, (k, v) ∈ l ∧ p k = true.
Proof.
  induction l as [|[k w] l IH]; simpl; [done|].
  destruct (p k) eqn:Hp.
  - intros [= <-]. exists k. split; [left|done].
  - intros Hf. destruct (IH Hf) as (k' & Hin & Hp'). exists k'. split; [by right|done].
Qed.

Lemma find_if_None {K V : Type} (p : K → bool) (l : list (K * V)) :
  find_if p l = None → ∀ k v, (k, v) ∈ l → p k = false.
Proof.
  induction l as [|[k w] l IH]; simpl; intros Hf k' v' Hin.
  - by apply elem_of_nil in Hin.
  - destruct (p k) eqn:Hp; [done|].
    apply elem_of_cons in Hin as [[= -> ->]|Hin]; [done|]. by eapply IH.
Qed.

Lemma find_if_prefix {K V : Type} (p : K → bool) (l l' : list (K * V)) (v : V) :
  find_if p l = Some v → l `prefix_of` l' → find_if p l' = Some v.
Proof. intros Hf [k ->]. rewrite find_if_app. by rewrite Hf. Qed.

Lemma at_app_l {A : Type} (l l' : list A) (i : Z) (a : A) :
  at_ l i = Some a → at_ (l ++ l') i = Some a.
Proof.
  unfold at_. destruct (i <? 0); [done|]. intros Hl.
  rewrite lookup_app_l; [done|]. by eapply lookup_lt_Some.
Qed.

Lemma at_prefix {A : Type} (l l' : list A) (i : Z) (a : A) :
  at_ l i = Some a → l `prefix_of` l' → at_ l' i = Some a.
Proof. intros Hl [k ->]. by apply at_app_l. Qed.

Lemma at_length {A : Type} (l : list A) (a : A) :
  at_ (l ++ [a]) (Z.of_nat (length l)) = Some a.
Proof.
  unfold at_. destruct (Z.ltb_spec (Z.of_nat (length l)) 0); [lia|].
  rewrite Nat2Z.id. rewrite lookup_app_r; [|lia]. by rewrite Nat.sub_diag.
Qed.

Section Decoder.
Context {D : Type} `{DoubleOps D}.
Variable ARENA_UNITS : D.
Variable mif : MIFConstants.
Variable inf : INFFile.

Abbreviation LD := (LevelData D).

(** Modelled from the spec: [VoxelGrid::addVoxelData] (World/VoxelGrid.h):
    the definition joins the list of definitions the grid owns, and its
    position there is the index assigned to it. *)
Definition addVoxelData (d : VoxelData D) (st : LD) : Z * LD :=
  (Z.of_nat (length (voxelDatas st)),
   mkLevelData (voxels st) (voxelDatas st ++ [d]) (floorDataMappings st)
     (chasmDataMappings st) (wallDataMappings st) (map2DataMappings st)
     (flatsLists st)).

(** [VoxelGrid::getVoxelData]. *)
Definition getVoxelData (st : LD) (id : Z) : option (VoxelData D) :=
  at_ (voxelDatas st) id.

(** [LevelData::setVoxel(int x, int y, int z, uint16_t id)]: the index is
    narrowed to 16 bits on the way into the grid. *)
Definition setVoxel (x y z id : Z) (st : LD) : LD :=
  mkLevelData (<[(x, y, z) := id mod 65536]> (voxels st)) (voxelDatas st)
    (floorDataMappings st) (chasmDataMappings st) (wallDataMappings st)
    (map2DataMappings st) (flatsLists st).

(** [VoxelGrid::getVoxel]; cells never written hold 0. *)
Definition getVoxel (st : LD) (x y z : Z) : Z :=
  default 0 (voxels st !! (x, y, z)).

(** [LevelData::addFlatInstance] *)
Fixpoint addPosition (flatIndex : Z) (pos : Z * Z) (l : list (Z * list (Z * Z)))
  : option (list (Z * list (Z * Z))) :=
  match l with
  | [] => None
  | (fi, ps) :: l' =>
      if fi =? flatIndex then Some ((fi, ps ++ [pos]) :: l')
      else match addPosition flatIndex pos l' with
           | Some r => Some ((fi, ps) :: r)
           | None => None
           end
  end.

Definition addFlatInstance (flatIndex : Z) (pos : Z * Z) (st : LD) : LD :=
  let fl :=
    match addPosition flatIndex pos (flatsLists st) with
    | Some fl' => fl'
    | None => flatsLists st ++ [(flatIndex, [pos])]
    end in
  mkLevelData (voxels st) (voxelDatas st) (floorDataMappings st)
    (chasmDataMappings st) (wallDataMappings st) (map2DataMappings st) fl.

(** *** readFLOR *)

(** The legacy layers are read in reverse order. *)
Definition getLayerVoxel (layer : list Z) (gridWidth gridDepth x z : Z) : option Z :=
  readLE16 layer (((gridDepth - 1) - z) + (((gridWidth - 1) - x) * gridDepth)).

Definition getFlorDataIndex (florVoxel floorTextureID : Z) (st : LD) : Z * LD :=
  match find_if (fun k => k =? florVoxel) (floorDataMappings st) with
  | Some index => (index, st)
  | None =>
      let '(index, st1) := addVoxelData (Floor floorTextureID) st in
      (index,
       mkLevelData (voxels st1) (voxelDatas st1)
         (floorDataMappings st1 ++ [(florVoxel, index)])
         (chasmDataMappings st1) (wallDataMappings st1) (map2DataMappings st1)
         (flatsLists st1))
  end.

Definition ChasmDataFunc : Type := INFFile → AdjacentFaces → VoxelData D.

Definition getChasmDataIndex (florVoxel : Z) (chasmFunc : ChasmDataFunc)
    (adjacentFaces : AdjacentFaces) (st : LD) : Z * LD :=
  match find_if (fun k => (k.1 =? florVoxel) && faces_eqb k.2 adjacentFaces)
          (chasmDataMappings st) with
  | Some index => (index, st)
  | None =>
      let '(index, st1) := addVoxelData (chasmFunc inf adjacentFaces) st in
      (index,
       mkLevelData (voxels st1) (voxelDatas st1) (floorDataMappings st1)
         (chasmDataMappings st1 ++ [(florVoxel, adjacentFaces, index)])
         (wallDataMappings st1) (map2DataMappings st1) (flatsLists st1))
  end.

Definition makeDryChasmVoxelData : ChasmDataFunc := fun inf adjacentFaces =>
  let dryChasmID := default 0 (getDryChasmIndex inf) in
  let '(f0, f1, f2, f3) := adjacentFaces in
  Chasm dryChasmID f0 f1 f2 f3 Dry.

Definition makeLavaChasmVoxelData : ChasmDataFunc := fun inf adjacentFaces =>
  let lavaChasmID := default 0 (getLavaChasmIndex inf) in
  let '(f0, f1, f2, f3) := adjacentFaces in
  Chasm lavaChasmID f0 f1 f2 f3 Lava.

Definition makeWetChasmVoxelData : ChasmDataFunc := fun inf adjacentFaces =>
  let wetChasmID := default 0 (getWetChasmIndex inf) in
  let '(f0, f1, f2, f3) := adjacentFaces in
  Chasm wetChasmID f0 f1 f2 f3 Wet.

Definition getFloorTextureID (voxel : Z) : Z := Z.shiftr (Z.land voxel 0xFF00) 8.
Definition getFlatIndex (voxel : Z) : Z := Z.land voxel 0x00FF.
Definition isChasm (id : Z) : bool :=
  (id =? DRY_CHASM mif) || (id =? LAVA_CHASM mif) || (id =? WET_CHASM mif).

(** The body of the two nested loops of [readFLOR]. *)
Definition readFLORVoxel (flor : list Z) (gridWidth gridDepth x z : Z) (st : LD)
  : option LD :=
  florVoxel ← getLayerVoxel flor gridWidth gridDepth x z;
  let floorTextureID := getFloorTextureID florVoxel in
  st1 ←
    (if negb (isChasm floorTextureID) then
       let '(dataIndex, st') := getFlorDataIndex florVoxel floorTextureID st in
       Some (setVoxel x 0 z dataIndex st')
     else
       northVoxel ← getLayerVoxel flor gridWidth gridDepth (Z.min (x + 1) (gridWidth - 1)) z;
       eastVoxel ← getLayerVoxel flor gridWidth gridDepth x (Z.min (z + 1) (gridDepth - 1));
       southVoxel ← getLayerVoxel flor gridWidth gridDepth (Z.max (x - 1) 0) z;
       westVoxel ← getLayerVoxel flor gridWidth gridDepth x (Z.max (z - 1) 0);
       let adjacentFaces : AdjacentFaces :=
         (negb (isChasm (getFloorTextureID northVoxel)),
          negb (isChasm (getFloorTextureID eastVoxel)),
          negb (isChasm (getFloorTextureID southVoxel)),
          negb (isChasm (getFloorTextureID westVoxel))) in
       if floorTextureID =? DRY_CHASM mif then
         let '(dataIndex, st') :=
           getChasmDataIndex florVoxel makeDryChasmVoxelData adjacentFaces st in
         Some (setVoxel x 0 z dataIndex st')
       else if floorTextureID =? LAVA_CHASM mif then
         let '(dataIndex, st') :=
           getChasmDataIndex florVoxel makeLavaChasmVoxelData adjacentFaces st in
         Some (setVoxel x 0 z dataIndex st')
       else if floorTextureID =? WET_CHASM mif then
         let '(dataIndex, st') :=
           getChasmDataIndex florVoxel makeWetChasmVoxelData adjacentFaces st in
         Some (setVoxel x 0 z dataIndex st')
       else Some st);
  let flatIndex := getFlatIndex florVoxel in
  Some (if 0 <? flatIndex then addFlatInstance (flatIndex - 1) (x, z) st1 else st1).

Definition readFLOR (flor : list Z) (gridWidth gridDepth : Z) (st : LD) : option LD :=
  forZ 0 gridWidth (fun x =>
    forZ 0 gridDepth (fun z => readFLORVoxel flor gridWidth gridDepth x z)) st.

(** *** readMAP2 *)

Definition getMap2VoxelHeight (map2Voxel : Z) : Z :=
  if Z.land map2Voxel 0x80 =? 0x80 then 2
  else if Z.land map2Voxel 0x8000 =? 0x8000 then 3
  else if Z.land map2Voxel 0x8080 =? 0x8080 then 4
  else 1.

Definition getMap2DataIndex (map2Voxel : Z) (st : LD) : Z * LD :=
  match find_if (fun k => k =? map2Voxel) (map2DataMappings st) with
  | Some index => (index, st)
  | None =>
      let textureIndex := Z.land map2Voxel 0x007F - 1 in
      let '(index, st1) :=
        addVoxelData (Wall textureIndex textureIndex textureIndex None Solid) st in
      (index,
       mkLevelData (voxels st1) (voxelDatas st1) (floorDataMappings st1)
         (chasmDataMappings st1) (wallDataMappings st1)
         (map2DataMappings st1 ++ [(map2Voxel, index)]) (flatsLists st1))
  end.

Definition readMAP2Voxel (map2 : list Z) (gridWidth gridDepth x z : Z) (st : LD)
  : option LD :=
  map2Voxel ← getLayerVoxel map2 gridWidth gridDepth x z;
  if negb (map2Voxel =? 0) then
    let height := getMap2VoxelHeight map2Voxel in
    let '(dataIndex, st1) := getMap2DataIndex map2Voxel st in
    forZ 2 (height + 2) (fun y st' => Some (setVoxel x y z dataIndex st')) st1
  else Some st.

Definition readMAP2 (map2 : list Z) (gridWidth gridDepth : Z) (st : LD) : option LD :=
  forZ 0 gridWidth (fun x =>
    forZ 0 gridDepth (fun z => readMAP2Voxel map2 gridWidth gridDepth x z)) st.

(** *** readMAP1 *)

Variable worldType : WorldType.
Variable wallHeightTables : WallHeightTables.

Definition findWallMapping (map1Voxel : Z) (st : LD) : option Z :=
  find_if (fun k => k =? map1Voxel) (wallDataMappings st).

Definition pushWallMapping (map1Voxel index : Z) (st : LD) : LD :=
  mkLevelData (voxels st) (voxelDatas st) (floorDataMappings st)
    (chasmDataMappings st) (wallDataMappings st ++ [(map1Voxel, index)])
    (map2DataMappings st) (flatsLists st).

(** General case: the voxel data is made by [func] from the voxel alone.
    [func] returning [None] is a crash inside it. *)
Definition getDataIndex (map1Voxel : Z) (func : Z → option (VoxelData D)) (st : LD)
  : option (Z * LD) :=
  match findWallMapping map1Voxel st with
  | Some index => Some (index, st)
  | None =>
      d ← func map1Voxel;
      let '(index, st1) := addVoxelData d st in
      Some (index, pushWallMapping map1Voxel index st1)
  end.

Definition makeWallVoxelData (map1Voxel mostSigByte : Z) : VoxelData D :=
  let textureIndex := mostSigByte - 1 in
  let menuIndex := getMenuIndex inf textureIndex in
  let isMenu := negb (menuIndex =? -1) in
  let matchesIndex (index : option Z) :=
    match index with Some i => i =? textureIndex | None => false end in
  let type :=
    if matchesIndex (getLevelUpIndex inf) then LevelUp
    else if matchesIndex (getLevelDownIndex inf) then LevelDown
    else if isMenu then Menu
    else Solid in
  Wall textureIndex textureIndex textureIndex
    (if isMenu then Some menuIndex else None) type.

Definition getWallDataIndex (map1Voxel mostSigByte : Z) (st : LD) : option (Z * LD) :=
  match findWallMapping map1Voxel st with
  | Some index => Some (index, st)
  | None =>
      let '(index, st1) := addVoxelData (makeWallVoxelData map1Voxel mostSigByte) st in
      Some (index, pushWallMapping map1Voxel index st1)
  end.

(** [x] and [z] only reach a log message. *)
Definition makeRaisedVoxelData (map1Voxel mostSigByte x z : Z) : option (VoxelData D) :=
  let wallTextureID := Z.land map1Voxel 0x000F in
  let capTextureID := Z.shiftr (Z.land map1Voxel 0x00F0) 4 in
  let sideID := default 0 (getBoxSide inf wallTextureID) in
  let floorID := default 0 (ceiling_textureIndex inf) in
  let ceilingID := default 0 (getBoxCap inf capTextureID) in
  let heightIndex := Z.land mostSigByte 0x07 in
  let thicknessIndex := Z.shiftr (Z.land mostSigByte 0x78) 3 in
  '(baseOffset, baseSize) ←
    match worldType with
    | City =>
        baseOffset ← at_ (box1b wallHeightTables) heightIndex;
        baseSize ← at_ (box2b wallHeightTables) thicknessIndex;
        Some (baseOffset, baseSize)
    | Interior =>
        baseOffset ← at_ (box1a wallHeightTables) heightIndex;
        boxSize ← at_ (box2a wallHeightTables) thicknessIndex;
        Some (baseOffset,
              match ceiling_boxScale inf with
              | Some boxScale => Z.quot (boxSize * boxScale) 256
              | None => boxSize
              end)
    | Wilderness =>
        baseOffset ← at_ (box1c wallHeightTables) heightIndex;
        let boxSize := 32 in
        Some (baseOffset,
              Z.quot (boxSize * default 192 (ceiling_boxScale inf)) 256)
    end;
  let yOffset := d_div (d_of_int baseOffset) ARENA_UNITS in
  let ySize := d_div (d_of_int baseSize) ARENA_UNITS in
  let normalizedScale := d_div (d_of_int (ceiling_height inf)) ARENA_UNITS in
  let yOffsetNormalized := d_div yOffset normalizedScale in
  let ySizeNormalized := d_div ySize normalizedScale in
  let vTop :=
    d_max (d_of_int 0) (d_sub (d_sub (d_of_int 1) yOffsetNormalized) ySizeNormalized) in
  let vBottom := d_min (d_add vTop ySizeNormalized) (d_of_int 1) in
  Some (Raised sideID floorID ceilingID yOffsetNormalized ySizeNormalized vTop vBottom).

Definition getRaisedDataIndex (map1Voxel mostSigByte x z : Z) (st : LD)
  : option (Z * LD) :=
  match findWallMapping map1Voxel st with
  | Some index => Some (index, st)
  | None =>
      d ← makeRaisedVoxelData map1Voxel mostSigByte x z;
      let '(index, st1) := addVoxelData d st in
      Some (index, pushWallMapping map1Voxel index st1)
  end.

Definition makeType9VoxelData (map1Voxel : Z) : option (VoxelData D) :=
  let textureIndex := Z.land map1Voxel 0x00FF - 1 in
  let collider := Z.land map1Voxel 0x0100 =? 0 in
  Some (TransparentWall textureIndex collider).

Definition makeTypeAVoxelData (map1Voxel textureIndex : Z) : VoxelData D :=
  let yOffset :=
    let baseOffset := Z.shiftr (Z.land map1Voxel 0x0E00) 9 in
    let fullOffset :=
      match worldType with
      | Interior => baseOffset * 8
      | _ => baseOffset * 32 - 8
      end in
    d_div (d_of_int fullOffset) ARENA_UNITS in
  let collider := negb (Z.land map1Voxel 0x0100 =? 0) in
  let flipped := collider in
  let facing :=
    let orientation := Z.shiftr (Z.land map1Voxel 0x00C0) 4 in
    if orientation =? 0x0 then PositiveX
    else if orientation =? 0x4 then NegativeZ
    else if orientation =? 0x8 then NegativeX
    else PositiveZ in
  Edge textureIndex yOffset collider flipped facing.

Definition getTypeADataIndex (map1Voxel textureIndex : Z) (st : LD) : option (Z * LD) :=
  match findWallMapping map1Voxel st with
  | Some index => Some (index, st)
  | None =>
      let '(index, st1) := addVoxelData (makeTypeAVoxelData map1Voxel textureIndex) st in
      Some (index, pushWallMapping map1Voxel index st1)
  end.

(** A door type outside the three known ones ends in
    [DebugUnhandledReturnMsg]. *)
Definition makeTypeBVoxelData (map1Voxel : Z) : option (VoxelData D) :=
  let textureIndex := Z.land map1Voxel 0x003F - 1 in
  let type := Z.shiftr (Z.land map1Voxel 0x00C0) 4 in
  doorType ←
    (if type =? 0x0 then Some Swinging
     else if type =? 0x4 then Some Sliding
     else if type =? 0x8 then Some Raising
     else None);
  Some (Door textureIndex doorType).

Definition makeTypeDVoxelData (map1Voxel : Z) : option (VoxelData D) :=
  let textureIndex := Z.land map1Voxel 0x00FF - 1 in
  let isRightDiag := Z.land map1Voxel 0x0100 =? 0 in
  Some (Diagonal textureIndex isRightDiag).

(** The body of the two nested loops of [readMAP1]. *)
Definition readMAP1Voxel (map1 : list Z) (gridWidth gridDepth x z : Z) (st : LD)
  : option LD :=
  map1Voxel ← getLayerVoxel map1 gridWidth gridDepth x z;
  if Z.land map1Voxel 0x8000 =? 0 then
    let voxelIsEmpty := map1Voxel =? 0 in
    if negb voxelIsEmpty then
      let mostSigByte := Z.shiftr (Z.land map1Voxel 0x7F00) 8 in
      let leastSigByte := Z.land map1Voxel 0x007F in
      let voxelIsSolid := mostSigByte =? leastSigByte in
      if voxelIsSolid then
        '(dataIndex, st1) ← getWallDataIndex map1Voxel mostSigByte st;
        Some (setVoxel x 1 z dataIndex st1)
      else
        '(dataIndex, st1) ← getRaisedDataIndex map1Voxel mostSigByte x z st;
        Some (setVoxel x 1 z dataIndex st1)
    else Some st
  else
    let mostSigNibble := Z.shiftr (Z.land map1Voxel 0xF000) 12 in
    if mostSigNibble =? 0x8 then
      let flatIndex := Z.land map1Voxel 0x00FF in
      Some (if 0 <? flatIndex then addFlatInstance flatIndex (x, z) st else st)
    else if mostSigNibble =? 0x9 then
      '(dataIndex, st1) ← getDataIndex map1Voxel makeType9VoxelData st;
      Some (setVoxel x 1 z dataIndex st1)
    else if mostSigNibble =? 0xA then
      let textureIndex := Z.land map1Voxel 0x003F - 1 in
      if 0 <=? textureIndex then
        '(dataIndex, st1) ← getTypeADataIndex map1Voxel textureIndex st;
        Some (setVoxel x 1 z dataIndex st1)
      else Some st
    else if mostSigNibble =? 0xB then
      '(dataIndex, st1) ← getDataIndex map1Voxel makeTypeBVoxelData st;
      Some (setVoxel x 1 z dataIndex st1)
    else if mostSigNibble =? 0xC then Some st
    else if mostSigNibble =? 0xD then
      '(dataIndex, st1) ← getDataIndex map1Voxel makeTypeDVoxelData st;
      Some (setVoxel x 1 z dataIndex st1)
    else Some st.

Definition readMAP1 (map1 : list Z) (gridWidth gridDepth : Z) (st : LD) : option LD :=
  forZ 0 gridWidth (fun x =>
    forZ 0 gridDepth (fun z => readMAP1Voxel map1 gridWidth gridDepth x z)) st.

(** [readCeiling] *)
Definition readCeiling (width depth : Z) (st : LD) : option LD :=
  let ceilingIndex := default 1 (ceiling_textureIndex inf) in
  let '(index, st1) := addVoxelData (Ceiling ceilingIndex) st in
  forZ 0 width (fun x =>
    forZ 0 depth (fun z st' => Some (setVoxel x 2 z index st'))) st1.

(** *** The four caches as one keyed table

    A cache key is the raw legacy code, together with the adjacency bitset
    for chasms. [lookupKey] is the lookup the decoder performs for a key,
    [decoded] the definition the decoder builds for it, [cacheFind] the
    [std::find_if] of the matching mapping list. *)

Inductive CacheKey :=
| FloorKey (florVoxel : Z)
| ChasmKey (florVoxel : Z) (adjacentFaces : AdjacentFaces)
| WallKey (map1Voxel : Z)
| Map2Key (map2Voxel : Z).

Definition chasmFuncFor (floorTextureID : Z) : option ChasmDataFunc :=
  if floorTextureID =? DRY_CHASM mif then Some makeDryChasmVoxelData
  else if floorTextureID =? LAVA_CHASM mif then Some makeLavaChasmVoxelData
  else if floorTextureID =? WET_CHASM mif then Some makeWetChasmVoxelData
  else None.

(** The lookup [readMAP1] performs for a MAP1 code, if it performs one. *)
Definition lookupMAP1 (map1Voxel : Z) (st : LD) : option (Z * LD) :=
  if Z.land map1Voxel 0x8000 =? 0 then
    if negb (map1Voxel =? 0) then
      let mostSigByte := Z.shiftr (Z.land map1Voxel 0x7F00) 8 in
      let leastSigByte := Z.land map1Voxel 0x007F in
      if mostSigByte =? leastSigByte then getWallDataIndex map1Voxel mostSigByte st
      else getRaisedDataIndex map1Voxel mostSigByte 0 0 st
    else None
  else
    let mostSigNibble := Z.shiftr (Z.land map1Voxel 0xF000) 12 in
    if mostSigNibble =? 0x8 then None
    else if mostSigNibble =? 0x9 then getDataIndex map1Voxel makeType9VoxelData st
    else if mostSigNibble =? 0xA then
      let textureIndex := Z.land map1Voxel 0x003F - 1 in
      if 0 <=? textureIndex then getTypeADataIndex map1Voxel textureIndex st else None
    else if mostSigNibble =? 0xB then getDataIndex map1Voxel makeTypeBVoxelData st
    else if mostSigNibble =? 0xC then None
    else if mostSigNibble =? 0xD then getDataIndex map1Voxel makeTypeDVoxelData st
    else None.

(** The definition [readMAP1] builds for a MAP1 code. *)
Definition decodeMAP1 (map1Voxel : Z) : option (VoxelData D) :=
  if Z.land map1Voxel 0x8000 =? 0 then
    if negb (map1Voxel =? 0) then
      let mostSigByte := Z.shiftr (Z.land map1Voxel 0x7F00) 8 in
      let leastSigByte := Z.land map1Voxel 0x007F in
      if mostSigByte =? leastSigByte then Some (makeWallVoxelData map1Voxel mostSigByte)
      else makeRaisedVoxelData map1Voxel mostSigByte 0 0
    else None
  else
    let mostSigNibble := Z.shiftr (Z.land map1Voxel 0xF000) 12 in
    if mostSigNibble =? 0x8 then None
    else if mostSigNibble =? 0x9 then makeType9VoxelData map1Voxel
    else if mostSigNibble =? 0xA then
      let textureIndex := Z.land map1Voxel 0x003F - 1 in
      if 0 <=? textureIndex then Some (makeTypeAVoxelData map1Voxel textureIndex) else None
    else if mostSigNibble =? 0xB then makeTypeBVoxelData map1Voxel
    else if mostSigNibble =? 0xC then None
    else if mostSigNibble =? 0xD then makeTypeDVoxelData map1Voxel
    else None.

Definition lookupKey (k : CacheKey) (st : LD) : option (Z * LD) :=
  match k with
  | FloorKey c => Some (getFlorDataIndex c (getFloorTextureID c) st)
  | ChasmKey c f =>
      chasmFunc ← chasmFuncFor (getFloorTextureID c);
      Some (getChasmDataIndex c chasmFunc f st)
  | WallKey c => lookupMAP1 c st
  | Map2Key c => Some (getMap2DataIndex c st)
  end.

Definition decoded (k : CacheKey) : option (VoxelData D) :=
  match k with
  | FloorKey c => Some (Floor (getFloorTextureID c))
  | ChasmKey c f =>
      chasmFunc ← chasmFuncFor (getFloorTextureID c);
      Some (chasmFunc inf f)
  | WallKey c => decodeMAP1 c
  | Map2Key c =>
      let textureIndex := Z.land c 0x007F - 1 in
      Some (Wall textureIndex textureIndex textureIndex None Solid)
  end.

Definition cacheFind (k : CacheKey) (st : LD) : option Z :=
  match k with
  | FloorKey c => find_if (fun k => k =? c) (floorDataMappings st)
  | ChasmKey c f =>
      find_if (fun k => (k.1 =? c) && faces_eqb k.2 f) (chasmDataMappings st)
  | WallKey c => findWallMapping c st
  | Map2Key c => find_if (fun k => k =? c) (map2DataMappings st)
  end.

(** The state after a miss: definition appended, mapping appended. *)
Definition cacheInsert (k : CacheKey) (d : VoxelData D) (st : LD) : LD :=
  let index := Z.of_nat (length (voxelDatas st)) in
  let defs := voxelDatas st ++ [d] in
  match k with
  | FloorKey c =>
      mkLevelData (voxels st) defs (floorDataMappings st ++ [(c, index)])
        (chasmDataMappings st) (wallDataMappings st) (map2DataMappings st)
        (flatsLists st)
  | ChasmKey c f =>
      mkLevelData (voxels st) defs (floorDataMappings st)
        (chasmDataMappings st ++ [(c, f, index)]) (wallDataMappings st)
        (map2DataMappings st) (flatsLists st)
  | WallKey c =>
      mkLevelData (voxels st) defs (floorDataMappings st) (chasmDataMappings st)
        (wallDataMappings st ++ [(c, index)]) (map2DataMappings st) (flatsLists st)
  | Map2Key c =>
      mkLevelData (voxels st) defs (floorDataMappings st) (chasmDataMappings st)
        (wallDataMappings st) (map2DataMappings st ++ [(c, index)]) (flatsLists st)
  end.

(** One mapping list is consistent with the definitions list: no key
    twice, and every index names the definition decoded from its key. *)
Definition table_ok {K : Type} (defs : list (VoxelData D))
    (dec : K → option (VoxelData D)) (l : list (K * Z)) : Prop :=
  NoDup l.*1 ∧ ∀ k i, (k, i) ∈ l → ∃ d, dec k = Some d ∧ at_ defs i = Some d.

Definition cache_inv (st : LD) : Prop :=
  table_ok (voxelDatas st) (fun c => decoded (FloorKey c)) (floorDataMappings st) ∧
  table_ok (voxelDatas st) (fun k => decoded (ChasmKey k.1 k.2)) (chasmDataMappings st) ∧
  table_ok (voxelDatas st) (fun c => decoded (WallKey c)) (wallDataMappings st) ∧
  table_ok (voxelDatas st) (fun c => decoded (Map2Key c)) (map2DataMappings st).

(** Decoding only ever appends to the definitions and to the mappings. *)
Definition extends (st st' : LD) : Prop :=
  voxelDatas st `prefix_of` voxelDatas st' ∧
  floorDataMappings st `prefix_of` floorDataMappings st' ∧
  chasmDataMappings st `prefix_of` chasmDataMappings st' ∧
  wallDataMappings st `prefix_of` wallDataMappings st' ∧
  map2DataMappings st `prefix_of` map2DataMappings st'.

(** Only the grid cells and the flats differ. *)
Definition same_caches (st st' : LD) : Prop :=
  voxelDatas st' = voxelDatas st ∧
  floorDataMappings st' = floorDataMappings st ∧
  chasmDataMappings st' = chasmDataMappings st ∧
  wallDataMappings st' = wallDataMappings st ∧
  map2DataMappings st' = map2DataMappings st.

(** One step of a level decode: a cell of one of the three layers, or the
    ceiling pass. *)
Inductive decode_step : LD → LD → Prop :=
| step_FLOR flor gridWidth gridDepth x z st st' :
    readFLORVoxel flor gridWidth gridDepth x z st = Some st' → decode_step st st'
| step_MAP1 map1 gridWidth gridDepth x z st st' :
    readMAP1Voxel map1 gridWidth gridDepth x z st = Some st' → decode_step st st'
| step_MAP2 map2 gridWidth gridDepth x z st st' :
    readMAP2Voxel map2 gridWidth gridDepth x z st = Some st' → decode_step st st'
| step_ceiling width depth st st' :
    readCeiling width depth st = Some st' → decode_step st st'.

(** *** Cache lemmas *)

Lemma faces_eqb_eq (a b : AdjacentFaces) : faces_eqb a b = true ↔ a = b.
Proof.
  destruct a as [[[a0 a1] a2] a3], b as [[[b0 b1] b2] b3]. unfold faces_eqb.
  rewrite !andb_true_iff, !Bool.eqb_true_iff. split.
  - intros [[[-> ->] ->] ->]. done.
  - intros [= -> -> -> ->]. done.
Qed.

Lemma table_ok_app_defs {K : Type} (defs more : list (VoxelData D))
    (dec : K → option (VoxelData D)) (l : list (K * Z)) :
  table_ok defs dec l → table_ok (defs ++ more) dec l.
Proof.
  intros [Hnd Hdef]. split; [done|].
  intros k i Hin. destruct (Hdef k i Hin) as (d & Hd & Hat).
  exists d. split; [done|]. by apply at_app_l.
Qed.

Lemma table_ok_insert {K : Type} (defs : list (VoxelData D))
    (dec : K → option (VoxelData D)) (l : list (K * Z)) (k : K) (d : VoxelData D) :
  table_ok defs dec l →
  (∀ k' i, (k', i) ∈ l → k' ≠ k) →
  dec k = Some d →
  table_ok (defs ++ [d]) dec (l ++ [(k, Z.of_nat (length defs))]).
Proof.
  intros [Hnd Hdef] Hfresh Hdec. split.
  - rewrite fmap_app. apply NoDup_app. split; [done|]. split.
    + intros k' Hk' Hk. apply list_elem_of_fmap in Hk' as ([k1 i1] & -> & Hin).
      simpl in Hk. apply list_elem_of_singleton in Hk. by eapply Hfresh.
    + simpl. apply NoDup_singleton.
  - intros k' i Hin. apply elem_of_app in Hin as [Hin|Hin].
    + destruct (Hdef k' i Hin) as (d' & Hd' & Hat).
      exists d'. split; [done|]. by apply at_app_l.
    + apply list_elem_of_singleton in Hin as [= -> ->].
      exists d. split; [done|]. apply at_length.
Qed.

Lemma extends_refl (st : LD) : extends st st.
Proof. by repeat split. Qed.

Lemma extends_trans (st1 st2 st3 : LD) :
  extends st1 st2 → extends st2 st3 → extends st1 st3.
Proof.
  intros (?&?&?&?&?) (?&?&?&?&?). repeat split; by etrans.
Qed.

Lemma same_caches_extends (st st' : LD) : same_caches st st' → extends st st'.
Proof.
  intros (E1&E2&E3&E4&E5). unfold extends. by rewrite E1, E2, E3, E4, E5.
Qed.

Lemma same_caches_inv (st st' : LD) :
  same_caches st st' → cache_inv st → cache_inv st'.
Proof.
  unfold cache_inv. intros (E1&E2&E3&E4&E5). by rewrite E1, E2, E3, E4, E5.
Qed.

Lemma same_caches_refl (st : LD) : same_caches st st.
Proof. by repeat split. Qed.

Lemma same_caches_trans (st1 st2 st3 : LD) :
  same_caches st1 st2 → same_caches st2 st3 → same_caches st1 st3.
Proof.
  intros (E1&E2&E3&E4&E5) (F1&F2&F3&F4&F5). unfold same_caches.
  by rewrite F1, F2, F3, F4, F5.
Qed.

Lemma setVoxel_same (x y z id : Z) (st : LD) : same_caches st (setVoxel x y z id st).
Proof. by repeat split. Qed.

Lemma addFlatInstance_same (fi : Z) (pos : Z * Z) (st : LD) :
  same_caches st (addFlatInstance fi pos st).
Proof. by repeat split. Qed.

Lemma cacheFind_extends (k : CacheKey) (st st' : LD) (i : Z) :
  extends st st' → cacheFind k st = Some i → cacheFind k st' = Some i.
Proof.
  intros (?&?&?&?&?) Hf. destruct k; simpl in *; unfold findWallMapping in *;
    by eapply find_if_prefix.
Qed.

Lemma getVoxelData_extends (st st' : LD) (i : Z) (d : VoxelData D) :
  extends st st' → getVoxelData st i = Some d → getVoxelData st' i = Some d.
Proof. intros (?&?) Hd. unfold getVoxelData in *. by eapply at_prefix. Qed.

(** A hit names the definition decoded from the key. *)
Lemma cacheFind_decoded (k : CacheKey) (st : LD) (i : Z) :
  cache_inv st → cacheFind k st = Some i →
  ∃ d, decoded k = Some d ∧ getVoxelData st i = Some d.
Proof.
  intros (Hf & Hc & Hw & Hm) Hfind. unfold getVoxelData.
  destruct k as [c|c f|c|c]; simpl in Hfind; unfold findWallMapping in Hfind;
    apply find_if_Some in Hfind as (k' & Hin & Hp).
  - apply Z.eqb_eq in Hp as ->. by apply (proj2 Hf).
  - apply andb_true_iff in Hp as [Hp1 Hp2].
    apply Z.eqb_eq in Hp1. apply faces_eqb_eq in Hp2. subst.
    destruct (proj2 Hc k' i Hin) as (d & Hd & Hat). by exists d.
  - apply Z.eqb_eq in Hp as ->. by apply (proj2 Hw).
  - apply Z.eqb_eq in Hp as ->. by apply (proj2 Hm).
Qed.

(** A miss appends one definition and one mapping. *)
Lemma cacheInsert_spec (k : CacheKey) (d : VoxelData D) (st : LD) :
  cache_inv st → cacheFind k st = None → decoded k = Some d →
  cache_inv (cacheInsert k d st) ∧
  extends st (cacheInsert k d st) ∧
  cacheFind k (cacheInsert k d st) = Some (Z.of_nat (length (voxelDatas st))) ∧
  getVoxelData (cacheInsert k d st) (Z.of_nat (length (voxelDatas st))) = Some d.
Proof.
  intros (Hf & Hc & Hw & Hm) Hfind Hdec.
  assert (Hfresh : ∀ (p : Z → bool) (l : list (Z * Z)) (c : Z),
             (∀ k', p k' = (k' =? c)) → find_if p l = None →
             ∀ k' i, (k', i) ∈ l → k' ≠ c).
  { intros p l c Hp Hnone k' i Hin ->.
    pose proof (find_if_None p l Hnone c i Hin) as Hpc.
    rewrite Hp, Z.eqb_refl in Hpc. done. }
  split; [|split; [|split]].
  - destruct k as [c|c f|c|c]; simpl in Hfind; unfold cache_inv; simpl;
      (split; [|split; [|split]]); try (by apply table_ok_app_defs).
    + apply table_ok_insert; [done| |done]. by eapply Hfresh.
    + apply (table_ok_insert _ (fun k => decoded (ChasmKey k.1 k.2)) _ (c, f));
        [done| |done].
      intros [c' f'] i Hin [= -> ->].
      pose proof (find_if_None _ _ Hfind (c, f) i Hin) as Hp. simpl in Hp.
      rewrite Z.eqb_refl in Hp. simpl in Hp.
      assert (faces_eqb f f = true) by by apply faces_eqb_eq. congruence.
    + apply table_ok_insert; [done| |done]. by eapply Hfresh.
    + apply table_ok_insert; [done| |done]. by eapply Hfresh.
  - destruct k; unfold extends; simpl; repeat split;
      try done; by apply prefix_app_r.
  - destruct k as [c|c f|c|c]; simpl in *; unfold findWallMapping in *; simpl;
      rewrite find_if_app, Hfind; simpl; rewrite ?Z.eqb_refl; try done.
    simpl. assert (faces_eqb f f = true) as -> by by apply faces_eqb_eq. done.
  - destruct k; unfold getVoxelData; simpl; apply at_length.
Qed.

(** Every lookup of the decoder is a hit that leaves the state alone, or a
    miss that inserts. *)
Lemma lookupKey_cases (k : CacheKey) (st st1 : LD) (i : Z) :
  lookupKey k st = Some (i, st1) →
  (cacheFind k st = Some i ∧ st1 = st) ∨
  (∃ d, decoded k = Some d ∧ cacheFind k st = None ∧
        i = Z.of_nat (length (voxelDatas st)) ∧ st1 = cacheInsert k d st).
Proof.
  destruct k as [c|c f|c|c]; simpl.
  - unfold getFlorDataIndex.
    destruct (find_if _ (floorDataMappings st)) as [j|] eqn:Hf; simpl.
    + intros [= <- <-]. by left.
    + intros [= <- <-]. right. by eexists.
  - destruct (chasmFuncFor (getFloorTextureID c)) as [cf|]; simpl; [|done].
    unfold getChasmDataIndex.
    destruct (find_if _ (chasmDataMappings st)) as [j|] eqn:Hf; simpl.
    + intros [= <- <-]. by left.
    + intros [= <- <-]. right. by eexists.
  - unfold lookupMAP1, decodeMAP1, getWallDataIndex, getRaisedDataIndex,
      getDataIndex, getTypeADataIndex.
    destruct (findWallMapping c st) as [j|] eqn:Hf.
    + repeat (case_match; try done); intros [= <- <-]; by left.
    + unfold addVoxelData, pushWallMapping.
      repeat (case_match; try done); simpl;
        try (intros [= <- <-]; right; by eexists);
        match goal with
        | |- context [?b ≫= _] => destruct b as [d|] eqn:Hd; simpl; [|done]
        end; intros [= <- <-]; right; by eexists.
  - unfold getMap2DataIndex.
    destruct (find_if _ (map2DataMappings st)) as [j|] eqn:Hf; simpl.
    + intros [= <- <-]. by left.
    + intros [= <- <-]. right. by eexists.
Qed.

Lemma lookupKey_voxels (k : CacheKey) (st st1 : LD) (i : Z) :
  lookupKey k st = Some (i, st1) →
  voxels st1 = voxels st ∧ flatsLists st1 = flatsLists st.
Proof.
  intros Hl. apply lookupKey_cases in Hl as [[_ ->]|(d & _ & _ & _ & ->)]; [done|].
  by destruct k.
Qed.

Lemma lookupKey_step (k : CacheKey) (st st1 : LD) (i : Z) :
  cache_inv st → lookupKey k st = Some (i, st1) →
  cache_inv st1 ∧ extends st st1 ∧ cacheFind k st1 = Some i ∧
  ∃ d, decoded k = Some d ∧ getVoxelData st1 i = Some d.
Proof.
  intros Hinv Hl.
  apply lookupKey_cases in Hl as [[Hf ->]|(d & Hd & Hf & -> & ->)].
  - split; [done|]. split; [apply extends_refl|]. split; [done|].
    by apply cacheFind_decoded.
  - destruct (cacheInsert_spec k d st Hinv Hf Hd) as (?&?&?&?).
    repeat (split; [done|]). by exists d.
Qed.

(** Once a key is in its cache, the decoder's lookup is a hit. *)
Lemma lookupKey_hit (k : CacheKey) (st st2 : LD) (r : Z * LD) (i : Z) :
  lookupKey k st = Some r → cacheFind k st2 = Some i →
  lookupKey k st2 = Some (i, st2).
Proof.
  intros Hl Hf. destruct k as [c|c f|c|c]; simpl in *.
  - unfold getFlorDataIndex. by rewrite Hf.
  - destruct (chasmFuncFor (getFloorTextureID c)) as [cf|]; simpl in *; [|done].
    unfold getChasmDataIndex. by rewrite Hf.
  - unfold lookupMAP1, getWallDataIndex, getRaisedDataIndex, getDataIndex,
      getTypeADataIndex in *. rewrite Hf. clear Hf.
    repeat (case_match; try done).
  - unfold getMap2DataIndex. by rewrite Hf.
Qed.

Lemma addVoxelData_inv (d : VoxelData D) (st : LD) :
  cache_inv st →
  cache_inv (addVoxelData d st).2 ∧ extends st (addVoxelData d st).2.
Proof.
  intros (?&?&?&?). split.
  - unfold cache_inv; simpl.
    (split; [|split; [|split]]); by apply table_ok_app_defs.
  - unfold extends; simpl. split; [by apply prefix_app_r|done].
Qed.

(** What one FLOR cell does: one lookup, keyed by the code alone for a
    floor and by the code and the adjacency of its four neighbours for a
    chasm, whose index goes into the grid at height 0. *)
Lemma readFLORVoxel_spec (flor : list Z) (gridWidth gridDepth x z : Z) (st st' : LD) :
  readFLORVoxel flor gridWidth gridDepth x z st = Some st' →
  ∃ c k i st1,
    getLayerVoxel flor gridWidth gridDepth x z = Some c ∧
    (if isChasm (getFloorTextureID c) then ∃ f, k = ChasmKey c f else k = FloorKey c) ∧
    lookupKey k st = Some (i, st1) ∧
    same_caches st1 st' ∧
    voxels st' = <[(x, 0, z) := i mod 65536]> (voxels st).
Proof.
  unfold readFLORVoxel.
  destruct (getLayerVoxel flor gridWidth gridDepth x z) as [c|] eqn:Hc; simpl; [|done].
  destruct (isChasm (getFloorTextureID c)) eqn:Hch; simpl.
  - destruct (getLayerVoxel flor gridWidth gridDepth (Z.min (x + 1) (gridWidth - 1)) z)
      as [nv|]; simpl; [|done].
    destruct (getLayerVoxel flor gridWidth gridDepth x (Z.min (z + 1) (gridDepth - 1)))
      as [ev|]; simpl; [|done].
    destruct (getLayerVoxel flor gridWidth gridDepth (Z.max (x - 1) 0) z)
      as [sv|]; simpl; [|done].
    destruct (getLayerVoxel flor gridWidth gridDepth x (Z.max (z - 1) 0))
      as [wv|]; simpl; [|done].
    set (f := (_, _, _, _)).
    assert (Hsel : ∃ cf, chasmFuncFor (getFloorTextureID c) = Some cf ∧
      (if getFloorTextureID c =? DRY_CHASM mif
       then let '(dataIndex, st'0) := getChasmDataIndex c makeDryChasmVoxelData f st in
            Some (setVoxel x 0 z dataIndex st'0)
       else if getFloorTextureID c =? LAVA_CHASM mif
       then let '(dataIndex, st'0) := getChasmDataIndex c makeLavaChasmVoxelData f st in
            Some (setVoxel x 0 z dataIndex st'0)
       else if getFloorTextureID c =? WET_CHASM mif
       then let '(dataIndex, st'0) := getChasmDataIndex c makeWetChasmVoxelData f st in
            Some (setVoxel x 0 z dataIndex st'0)
       else Some st) =
      Some (setVoxel x 0 z (getChasmDataIndex c cf f st).1 (getChasmDataIndex c cf f st).2)).
    { unfold chasmFuncFor, isChasm in *.
      destruct (getFloorTextureID c =? DRY_CHASM mif);
        [eexists; split; [done|]; by destruct (getChasmDataIndex _ _ _ _)|].
      destruct (getFloorTextureID c =? LAVA_CHASM mif);
        [eexists; split; [done|]; by destruct (getChasmDataIndex _ _ _ _)|].
      destruct (getFloorTextureID c =? WET_CHASM mif);
        [eexists; split; [done|]; by destruct (getChasmDataIndex _ _ _ _)|].
      done. }
    destruct Hsel as (cf & Hcf & ->). simpl.
    destruct (getChasmDataIndex c cf f st) as [i st1] eqn:Hl. simpl.
    intros [= <-]. exists c, (ChasmKey c f), i, st1. rewrite Hch.
    split; [done|]. split; [by exists f|].
    assert (Hlk : lookupKey (ChasmKey c f) st = Some (i, st1)).
    { simpl. rewrite Hcf. simpl. by rewrite Hl. }
    split; [done|]. apply lookupKey_voxels in Hlk as [Hv _].
    destruct (0 <? getFlatIndex c); simpl; rewrite Hv; split; try done;
      by repeat split.
  - destruct (getFlorDataIndex c (getFloorTextureID c) st) as [i st1] eqn:Hl. simpl.
    intros [= <-]. exists c, (FloorKey c), i, st1. rewrite Hch.
    split; [done|]. split; [done|].
    assert (Hlk : lookupKey (FloorKey c) st = Some (i, st1)) by (simpl; by rewrite Hl).
    split; [done|]. apply lookupKey_voxels in Hlk as [Hv _].
    destruct (0 <? getFlatIndex c); simpl; rewrite Hv; split; try done;
      by repeat split.
Qed.

Lemma readMAP1Voxel_spec (map1 : list Z) (gridWidth gridDepth x z : Z) (st st' : LD) :
  readMAP1Voxel map1 gridWidth gridDepth x z st = Some st' →
  same_caches st st' ∨
  ∃ c i st1,
    getLayerVoxel map1 gridWidth gridDepth x z = Some c ∧
    lookupKey (WallKey c) st = Some (i, st1) ∧
    same_caches st1 st' ∧
    voxels st' = <[(x, 1, z) := i mod 65536]> (voxels st).
Proof.
  unfold readMAP1Voxel.
  destruct (getLayerVoxel map1 gridWidth gridDepth x z) as [c|] eqn:Hc; simpl; [|done].
  assert (Hgen : ∀ r,
    r = lookupMAP1 c st →
    (r ≫= (λ '(dataIndex, st1), Some (setVoxel x 1 z dataIndex st1))) = Some st' →
    same_caches st st' ∨
    ∃ c0 i st1, Some c = Some c0 ∧ lookupKey (WallKey c0) st = Some (i, st1) ∧
      same_caches st1 st' ∧ voxels st' = <[(x, 1, z) := i mod 65536]> (voxels st)).
  { intros r -> Hr. destruct (lookupMAP1 c st) as [[i st1]|] eqn:Hl; simpl in Hr; [|done].
    injection Hr as <-. right. exists c, i, st1. split; [done|]. split; [done|].
    split; [apply setVoxel_same|].
    assert (Hlk : lookupKey (WallKey c) st = Some (i, st1)) by done.
    apply lookupKey_voxels in Hlk as [Hv _]. simpl. by rewrite Hv. }
  unfold lookupMAP1 in Hgen.
  repeat (case_match; try (intros [= <-]; left; first [apply same_caches_refl | apply addFlatInstance_same]));
    try (apply Hgen; done).
Qed.

(** The inner loop of [readMAP2]: the same index into [height] cells of one
    column, from y = 2 upwards. *)
Lemma setVoxel_column (x z i hi : Z) (st1 st' : LD) :
  2 ≤ hi →
  forZ 2 hi (fun y s => Some (setVoxel x y z i s)) st1 = Some st' →
  same_caches st1 st' ∧
  (∀ y, 2 ≤ y < hi → voxels st' !! (x, y, z) = Some (i mod 65536)) ∧
  (∀ x' y' z', ¬ (x' = x ∧ z' = z ∧ 2 ≤ y' < hi) →
     voxels st' !! (x', y', z') = voxels st1 !! (x', y', z')).
Proof.
  intros Hhi Hrun.
  apply (forZ_inv (fun j s =>
    same_caches st1 s ∧
    (∀ y, 2 ≤ y < j → voxels s !! (x, y, z) = Some (i mod 65536)) ∧
    (∀ x' y' z', ¬ (x' = x ∧ z' = z ∧ 2 ≤ y' < j) →
       voxels s !! (x', y', z') = voxels st1 !! (x', y', z'))) _ 2 hi st1 st' Hhi Hrun).
  - split; [apply same_caches_refl|]. split; [intros; lia|done].
  - intros j t t' Hj (Hsame & Hin & Hout) [= <-].
    split; [eapply same_caches_trans; [done|apply setVoxel_same]|]. split.
    + intros y Hy. simpl. destruct (decide (y = j)) as [->|Hne].
      * by rewrite lookup_insert_eq.
      * rewrite lookup_insert_ne; [|congruence]. apply Hin. lia.
    + intros x' y' z' Hnot. simpl. rewrite lookup_insert_ne.
      * apply Hout. intros (-> & -> & Hy). apply Hnot. repeat split; lia.
      * intros [= <- <- <-]. apply Hnot. repeat split; lia.
Qed.

Lemma getMap2VoxelHeight_cases (v : Z) :
  getMap2VoxelHeight v = 1 ∨ getMap2VoxelHeight v = 2 ∨ getMap2VoxelHeight v = 3.
Proof.
  unfold getMap2VoxelHeight.
  destruct (Z.land v 128 =? 128) eqn:H80; [by right; left|].
  destruct (Z.land v 32768 =? 32768) eqn:H8000; [by right; right|].
  destruct (Z.land v 32896 =? 32896) eqn:H8080; [|by left].
  exfalso. apply Z.eqb_eq in H8080. apply Z.eqb_neq in H80. apply H80.
  change 128 with (Z.land 32896 128) at 1.
  by rewrite Z.land_assoc, H8080.
Qed.

Lemma readMAP2Voxel_spec (map2 : list Z) (gridWidth gridDepth x z : Z) (st st' : LD) :
  readMAP2Voxel map2 gridWidth gridDepth x z st = Some st' →
  st' = st ∨
  ∃ c i st1,
    getLayerVoxel map2 gridWidth gridDepth x z = Some c ∧ c ≠ 0 ∧
    lookupKey (Map2Key c) st = Some (i, st1) ∧
    same_caches st1 st' ∧
    (∀ y, 2 ≤ y < getMap2VoxelHeight c + 2 →
       voxels st' !! (x, y, z) = Some (i mod 65536)) ∧
    (∀ x' y' z', ¬ (x' = x ∧ z' = z ∧ 2 ≤ y' < getMap2VoxelHeight c + 2) →
       voxels st' !! (x', y', z') = voxels st !! (x', y', z')).
Proof.
  unfold readMAP2Voxel.
  destruct (getLayerVoxel map2 gridWidth gridDepth x z) as [c|] eqn:Hc; simpl; [|done].
  destruct (c =? 0) eqn:Hz; simpl.
  - intros [= <-]. by left.
  - destruct (getMap2DataIndex c st) as [i st1] eqn:Hl. intros Hrun.
    right. exists c, i, st1. apply Z.eqb_neq in Hz.
    assert (Hlk : lookupKey (Map2Key c) st = Some (i, st1)) by (simpl; by rewrite Hl).
    apply setVoxel_column in Hrun as (Hsame & Hin & Hout);
      [|destruct (getMap2VoxelHeight_cases c) as [->|[->| ->]]; lia].
    repeat (split; [done|]).
    apply lookupKey_voxels in Hlk as [Hv _]. intros x' y' z' Hnot.
    rewrite <- Hv. by apply Hout.
Qed.

Lemma readCeiling_spec (width depth : Z) (st st' : LD) :
  readCeiling width depth st = Some st' →
  same_caches (addVoxelData (Ceiling (default 1 (ceiling_textureIndex inf))) st).2 st'.
Proof.
  unfold readCeiling. simpl. set (st1 := mkLevelData _ _ _ _ _ _ _).
  intros Hrun. destruct (Z.le_gt_cases 0 width) as [Hw|Hw].
  - apply (forZ_inv (fun _ s => same_caches st1 s) _ 0 width st1 st' Hw Hrun).
    + apply same_caches_refl.
    + intros x s s' _ Hs Hin. destruct (Z.le_gt_cases 0 depth) as [Hd|Hd].
      * apply (forZ_inv (fun _ t => same_caches st1 t) _ 0 depth s s' Hd Hin); [done|].
        intros y t t' _ Ht [= <-]. eapply same_caches_trans; [done|apply setVoxel_same].
      * rewrite forZ_empty in Hin; [|lia]. by injection Hin as <-.
  - rewrite forZ_empty in Hrun; [|lia]. injection Hrun as <-. apply same_caches_refl.
Qed.

(** Every step of a decode keeps the caches consistent and only appends. *)
Lemma decode_step_inv (st st' : LD) :
  decode_step st st' → cache_inv st → cache_inv st' ∧ extends st st'.
Proof.
  intros Hstep Hinv.
  assert (Hlk : ∀ k i st1, lookupKey k st = Some (i, st1) → same_caches st1 st' →
                cache_inv st' ∧ extends st st').
  { intros k i st1 Hl Hsame.
    destruct (lookupKey_step k st st1 i Hinv Hl) as (Hinv1 & Hext & _).
    split; [by eapply same_caches_inv|].
    eapply extends_trans; [done|by apply same_caches_extends]. }
  assert (Hsm : same_caches st st' → cache_inv st' ∧ extends st st').
  { intros Hsame. split; [by eapply same_caches_inv|by apply same_caches_extends]. }
  destruct Hstep as [flor gw gd x z st st' Hr|map1 gw gd x z st st' Hr
                    |map2 gw gd x z st st' Hr|w d st st' Hr].
  - apply readFLORVoxel_spec in Hr as (c & k & i & st1 & _ & _ & Hl & Hsame & _).
    by eapply Hlk.
  - apply readMAP1Voxel_spec in Hr as [Hsame|(c & i & st1 & _ & Hl & Hsame & _)];
      [by apply Hsm|by eapply Hlk].
  - apply readMAP2Voxel_spec in Hr as [->|(c & i & st1 & _ & _ & Hl & Hsame & _)];
      [apply Hsm, same_caches_refl|by eapply Hlk].
  - apply readCeiling_spec in Hr.
    destruct (addVoxelData_inv (Ceiling (default 1 (ceiling_textureIndex inf))) st Hinv)
      as [Hinv1 Hext].
    split; [by eapply same_caches_inv|].
    eapply extends_trans; [done|by apply same_caches_extends].
Qed.

Lemma decode_steps_inv (st st' : LD) :
  rtc decode_step st st' → cache_inv st → cache_inv st' ∧ extends st st'.
Proof.
  induction 1 as [st|st st1 st2 Hstep _ IH]; intros Hinv.
  - split; [done|apply extends_refl].
  - destruct (decode_step_inv st st1 Hstep Hinv) as [Hinv1 Hext1].
    destruct (IH Hinv1) as [Hinv2 Hext2].
    split; [done|by eapply extends_trans].
Qed.

Lemma cache_inv_empty : cache_inv emptyLevel.
Proof.
  unfold cache_inv, table_ok; simpl.
  repeat split; try apply NoDup_nil_2; intros k i Hin; by apply elem_of_nil in Hin.
Qed.

(** *** Properties of the decoder *)

(** C2. Within one level decode (any sequence of FLOR, MAP1, MAP2 cells and
    ceiling passes, starting from a level whose caches are consistent, such
    as the empty level), every cache lookup is
    an exact-match, insert-if-absent lookup: it is a hit that changes
    nothing, or a miss that appends one definition and one mapping; the
    index it returns names the definition decoded from the key (so equal
    keys, hence structurally equal definitions from the same key, share one
    index); looking the same key up again at any later point of the decode
    returns the same index and changes nothing; and two keys whose decoded
    definitions differ never get the same index. For chasms the key is the
    floor code together with the four-face adjacency. *)
Theorem cache_lookup_exact_match (st0 st st1 : LD) (k : CacheKey) (i : Z) :
  cache_inv st0 →
  rtc decode_step st0 st →
  lookupKey k st = Some (i, st1) →
  ((cacheFind k st = Some i ∧ st1 = st) ∨
   (∃ d, decoded k = Some d ∧ cacheFind k st = None ∧
         i = Z.of_nat (length (voxelDatas st)) ∧ st1 = cacheInsert k d st)) ∧
  (∃ d, decoded k = Some d ∧ getVoxelData st1 i = Some d) ∧
  cache_inv st1 ∧
  (∀ st' st2, same_caches st1 st' → rtc decode_step st' st2 →
     lookupKey k st2 = Some (i, st2)) ∧
  (∀ st' st2 k' i' st3, same_caches st1 st' → rtc decode_step st' st2 →
     lookupKey k' st2 = Some (i', st3) → decoded k ≠ decoded k' → i ≠ i').
Proof.
  intros Hinv0 Hreach Hl.
  destruct (decode_steps_inv _ _ Hreach Hinv0) as [Hinv _].
  destruct (lookupKey_step k st st1 i Hinv Hl) as (Hinv1 & Hext1 & Hfind1 & d & Hd & Hat).
  split; [by apply lookupKey_cases|].
  split; [by exists d|]. split; [done|].
  assert (Hlater : ∀ st' st2, same_caches st1 st' → rtc decode_step st' st2 →
            cache_inv st2 ∧ extends st1 st2).
  { intros st' st2 Hsame Hsteps.
    destruct (decode_steps_inv st' st2 Hsteps (same_caches_inv _ _ Hsame Hinv1))
      as [Hinv2 Hext2].
    split; [done|].
    eapply extends_trans; [by apply same_caches_extends|done]. }
  split.
  - intros st' st2 Hsame Hsteps.
    destruct (Hlater st' st2 Hsame Hsteps) as [_ Hext].
    eapply lookupKey_hit; [done|]. by eapply cacheFind_extends.
  - intros st' st2 k' i' st3 Hsame Hsteps Hl' Hne ->.
    destruct (Hlater st' st2 Hsame Hsteps) as [Hinv2 Hext].
    destruct (lookupKey_step k' st2 st3 i' Hinv2 Hl') as (_ & Hext3 & _ & d' & Hd' & Hat').
    assert (Hat3 : getVoxelData st3 i' = Some d).
    { eapply getVoxelData_extends; [|done]. by eapply extends_trans. }
    congruence.
Qed.

(** C10. The story height of every MAP2 code is 1, 2 or 3, never 4: a code
    with both bits 0x80 and 0x8000 set is caught by the 0x80 test; so a
    nonzero MAP2 voxel changes its column of the grid at y = 2..4 only. *)
Theorem map2_story_height_at_most_three (map2Voxel : Z) :
  (getMap2VoxelHeight map2Voxel = 1 ∨ getMap2VoxelHeight map2Voxel = 2 ∨
   getMap2VoxelHeight map2Voxel = 3) ∧
  getMap2VoxelHeight map2Voxel ≠ 4 ∧
  (Z.land map2Voxel 0x8080 = 0x8080 → getMap2VoxelHeight map2Voxel = 2) ∧
  (∀ map2 gridWidth gridDepth x z (st st' : LD),
     getLayerVoxel map2 gridWidth gridDepth x z = Some map2Voxel →
     readMAP2Voxel map2 gridWidth gridDepth x z st = Some st' →
     ∀ x' y' z', ¬ (x' = x ∧ z' = z ∧ 2 ≤ y' ≤ 4) →
       voxels st' !! (x', y', z') = voxels st !! (x', y', z')).
Proof.
  pose proof (getMap2VoxelHeight_cases map2Voxel) as Hh.
  split; [done|]. split; [lia|]. split.
  - intros H8080. unfold getMap2VoxelHeight.
    assert (Z.land map2Voxel 128 = 128) as ->; [|done].
    change 128 with (Z.land 32896 128) at 1. by rewrite Z.land_assoc, H8080.
  - intros map2 gw gd x z st st' Hc Hr x' y' z' Hnot.
    apply readMAP2Voxel_spec in Hr as [->|(c & i & st1 & Hc' & _ & _ & _ & _ & Hout)];
      [done|].
    rewrite Hc in Hc'. injection Hc' as <-. apply Hout.
    intros (-> & -> & Hy). apply Hnot. repeat split; lia.
Qed.

(** *** readFLOR, cell by cell *)

(** What the claim about floor codes says of a definition written for
    code [c]. *)
Definition flor_variant_ok (c : Z) (d : VoxelData D) : Prop :=
  let floorTextureID := getFloorTextureID c in
  if isChasm floorTextureID then
    ∃ id north east south west,
      d = Chasm id north east south west
            (if floorTextureID =? DRY_CHASM mif then Dry
             else if floorTextureID =? LAVA_CHASM mif then Lava
             else Wet)
  else d = Floor floorTextureID.

(** The cell at height 0 holds (the low 16 bits of) an index whose
    definition is the right variant for the cell's code. *)
Definition flor_cell_ok (flor : list Z) (gridWidth gridDepth : Z) (st : LD) (x z : Z)
  : Prop :=
  ∃ c i d,
    getLayerVoxel flor gridWidth gridDepth x z = Some c ∧
    voxels st !! (x, 0, z) = Some (i mod 65536) ∧
    getVoxelData st i = Some d ∧
    flor_variant_ok c d.

Lemma decoded_flor_variant (c : Z) (k : CacheKey) (d : VoxelData D) :
  (if isChasm (getFloorTextureID c) then ∃ f, k = ChasmKey c f else k = FloorKey c) →
  decoded k = Some d → flor_variant_ok c d.
Proof.
  unfold flor_variant_ok. destruct (isChasm (getFloorTextureID c)) eqn:Hch.
  - intros [[[[f0 f1] f2] f3] ->]. simpl. unfold chasmFuncFor.
    destruct (getFloorTextureID c =? DRY_CHASM mif); simpl; [intros [= <-]; by eexists _,_,_,_,_|].
    destruct (getFloorTextureID c =? LAVA_CHASM mif); simpl; [intros [= <-]; by eexists _,_,_,_,_|].
    destruct (getFloorTextureID c =? WET_CHASM mif); simpl; [intros [= <-]; by eexists _,_,_,_,_|].
    done.
  - intros ->. simpl. by intros [= <-].
Qed.

Lemma getLayerVoxel_in_range (layer : list Z) (gridWidth gridDepth x z : Z) :
  Z.of_nat (length layer) = gridWidth * gridDepth →
  0 ≤ x < gridWidth → 0 ≤ z < gridDepth →
  is_Some (getLayerVoxel layer gridWidth gridDepth x z).
Proof.
  intros Hlen Hx Hz. unfold getLayerVoxel, readLE16.
  set (index := _ + _).
  assert (0 ≤ index < gridWidth * gridDepth) as Hi by (unfold index; nia).
  destruct (Z.ltb_spec index 0); [lia|].
  destruct (layer !! Z.to_nat index) as [v|] eqn:Hv; [by eexists|].
  apply lookup_ge_None in Hv. lia.
Qed.

Lemma readFLORVoxel_total (flor : list Z) (gridWidth gridDepth x z : Z) (st : LD) :
  Z.of_nat (length flor) = gridWidth * gridDepth →
  0 ≤ x < gridWidth → 0 ≤ z < gridDepth →
  is_Some (readFLORVoxel flor gridWidth gridDepth x z st).
Proof.
  intros Hlen Hx Hz. unfold readFLORVoxel.
  destruct (getLayerVoxel_in_range flor gridWidth gridDepth x z Hlen Hx Hz) as [c ->].
  destruct (getLayerVoxel_in_range flor gridWidth gridDepth
              (Z.min (x + 1) (gridWidth - 1)) z Hlen) as [nv ->]; [lia|lia|].
  destruct (getLayerVoxel_in_range flor gridWidth gridDepth
              x (Z.min (z + 1) (gridDepth - 1)) Hlen) as [ev ->]; [lia|lia|].
  destruct (getLayerVoxel_in_range flor gridWidth gridDepth
              (Z.max (x - 1) 0) z Hlen) as [sv ->]; [lia|lia|].
  destruct (getLayerVoxel_in_range flor gridWidth gridDepth
              x (Z.max (z - 1) 0) Hlen) as [wv ->]; [lia|lia|].
  simpl. repeat (case_match; simpl; try by eexists).
Qed.

(** One cell: the caches stay consistent, the cell itself becomes right,
    and the cells that were right stay right. *)
Lemma readFLORVoxel_cell (flor : list Z) (gridWidth gridDepth x z : Z) (st st' : LD) :
  cache_inv st →
  readFLORVoxel flor gridWidth gridDepth x z st = Some st' →
  cache_inv st' ∧
  flor_cell_ok flor gridWidth gridDepth st' x z ∧
  (∀ x' z', (x', z') ≠ (x, z) →
     flor_cell_ok flor gridWidth gridDepth st x' z' →
     flor_cell_ok flor gridWidth gridDepth st' x' z').
Proof.
  intros Hinv Hr.
  apply readFLORVoxel_spec in Hr as (c & k & i & st1 & Hc & Hk & Hl & Hsame & Hv).
  destruct (lookupKey_step k st st1 i Hinv Hl) as (Hinv1 & Hext & _ & d & Hd & Hat).
  split; [by eapply same_caches_inv|]. split.
  - exists c, i, d. split; [done|]. split; [by rewrite Hv, lookup_insert_eq|].
    split; [|by eapply decoded_flor_variant].
    eapply getVoxelData_extends; [by apply same_caches_extends|done].
  - intros x' z' Hne (c' & i' & d' & Hc' & Hv' & Hat' & Hok').
    exists c', i', d'. split; [done|].
    split; [rewrite Hv, lookup_insert_ne; [done|congruence]|].
    split; [|done]. eapply getVoxelData_extends; [|done].
    eapply extends_trans; [done|by apply same_caches_extends].
Qed.

(** C3. Run over a FLOR layer of the grid's size, from a level whose caches
    are consistent, [readFLOR] completes, and every cell (x, 0, z) of the
    grid then holds the index of a definition that is the Floor variant
    (with the code's texture ID) when the texture ID of the cell's code is
    none of the three chasm IDs, and exactly the Dry, Lava or Wet chasm
    variant selected by the texture ID when it is one of them. The grid
    holds the low 16 bits of the index, as [setVoxel] narrows it: the index
    itself whenever the level has at most 65536 definitions. *)
Theorem readFLOR_floor_or_chasm (flor : list Z) (gridWidth gridDepth : Z) (st : LD) :
  cache_inv st →
  0 ≤ gridWidth → 0 ≤ gridDepth →
  Z.of_nat (length flor) = gridWidth * gridDepth →
  ∃ st',
    readFLOR flor gridWidth gridDepth st = Some st' ∧
    ∀ x z, 0 ≤ x < gridWidth → 0 ≤ z < gridDepth →
      ∃ c i d,
        getLayerVoxel flor gridWidth gridDepth x z = Some c ∧
        voxels st' !! (x, 0, z) = Some (i mod 65536) ∧
        getVoxelData st' i = Some d ∧
        (Z.of_nat (length (voxelDatas st')) ≤ 65536 →
           getVoxelData st' (getVoxel st' x 0 z) = Some d) ∧
        (isChasm (getFloorTextureID c) = false → d = Floor (getFloorTextureID c)) ∧
        (isChasm (getFloorTextureID c) = true →
           isChasmData d = true ∧
           chasmTypeOf d =
             Some (if getFloorTextureID c =? DRY_CHASM mif then Dry
                   else if getFloorTextureID c =? LAVA_CHASM mif then Lava
                   else Wet)).
Proof.
  intros Hinv Hw Hd Hlen.
  set (cell_ok := flor_cell_ok flor gridWidth gridDepth).
  destruct (forZ_total
    (fun x s => cache_inv s ∧
       ∀ x' z', 0 ≤ x' < x → 0 ≤ z' < gridDepth → cell_ok s x' z')
    (fun x => forZ 0 gridDepth (fun z => readFLORVoxel flor gridWidth gridDepth x z))
    0 gridWidth st Hw) as (st' & Hrun & _ & Hall).
  - split; [done|]. intros; lia.
  - intros x s Hx [Hinvs Hdone].
    destruct (forZ_total
      (fun z t => cache_inv t ∧
         (∀ x' z', 0 ≤ x' < x → 0 ≤ z' < gridDepth → cell_ok t x' z') ∧
         (∀ z', 0 ≤ z' < z → cell_ok t x z'))
      (fun z => readFLORVoxel flor gridWidth gridDepth x z)
      0 gridDepth s Hd) as (s' & Hrow & Hinv' & Hprev & Hrow').
    + split; [done|]. split; [done|]. intros; lia.
    + intros z t Hz (Hinvt & Hprev & Hrow).
      destruct (readFLORVoxel_total flor gridWidth gridDepth x z t Hlen Hx Hz)
        as [t' Ht'].
      exists t'. split; [done|].
      destruct (readFLORVoxel_cell _ _ _ _ _ _ _ Hinvt Ht') as (Hinvt' & Hcell & Hkeep).
      split; [done|]. split.
      * intros x' z' Hx' Hz'. apply Hkeep; [|by apply Hprev].
        intros [= -> ->]. lia.
      * intros z' Hz'. destruct (decide (z' = z)) as [->|Hne]; [done|].
        apply Hkeep; [congruence|]. apply Hrow. lia.
    + exists s'. split; [done|]. split; [done|].
      intros x' z' Hx' Hz'. destruct (decide (x' = x)) as [->|Hne].
      * by apply Hrow'.
      * apply Hprev; [lia|done].
  - exists st'. split; [done|].
    intros x z Hx Hz. destruct (Hall x z Hx Hz) as (c & i & d & Hc & Hv & Hat & Hok).
    exists c, i, d. repeat (split; [done|]). split.
    { intros Hsmall. unfold getVoxel. rewrite Hv. simpl.
      rewrite Z.mod_small; [done|]. unfold getVoxelData, at_ in Hat.
      destruct (Z.ltb_spec i 0); [done|]. apply lookup_lt_Some in Hat. lia. }
    unfold flor_variant_ok in Hok. split; intros Hch; rewrite Hch in Hok; [done|].
    destruct Hok as (id & n & e & so & w & ->). done.
Qed.

End Decoder.

(** ** The decoder on a concrete level *)

(** Exact rationals stand in for doubles when the definitions are run. *)
Definition Q_DoubleOps : DoubleOps QArith_base.Q :=
  {| d_of_int := QArith_base.inject_Z;
     d_div := QArith_base.Qdiv;
     d_add := QArith_base.Qplus;
     d_sub := QArith_base.Qminus;
     d_max := Qminmax.Qmax;
     d_min := Qminmax.Qmin |}.

Definition sample_mif : MIFConstants :=
  {| DRY_CHASM := 0xC; LAVA_CHASM := 0xE; WET_CHASM := 0xD |}.

Definition sample_inf : INFFile :=
  {| getDryChasmIndex := Some 5;
     getLavaChasmIndex := None;
     getWetChasmIndex := Some 7;
     getMenuIndex := fun textureIndex => if textureIndex =? 3 then 0 else -1;
     getLevelUpIndex := Some 10;
     getLevelDownIndex := None;
     getBoxSide := fun id => if id =? 1 then Some 20 else None;
     getBoxCap := fun id => if id =? 2 then Some 21 else None;
     ceiling_textureIndex := Some 2;
     ceiling_boxScale := None;
     ceiling_height := 128 |}.

Definition sample_tables : WallHeightTables :=
  {| box1a := [8; 16; 24; 32; 40; 48; 56; 64];
     box1b := [8; 16; 24; 32; 40; 48; 56; 64];
     box1c := [8; 16; 24; 32; 40; 48; 56; 64];
     box2a := [2; 4; 6; 8; 10; 12; 14; 16; 18; 20; 22; 24; 26; 28; 30; 32];
     box2b := [2; 4; 6; 8; 10; 12; 14; 16; 18; 20; 22; 24; 26; 28; 30; 32] |}.

(** A 2 x 2 FLOR layer: a floor, a dry chasm, a lava chasm, a wet chasm
    with a flat on it. *)
Definition sample_flor : list Z := [0x0100; 0x0C00; 0x0E00; 0x0D01].

Definition sample_level : LevelData QArith_base.Q := emptyLevel.

Example readFLOR_sample :
  (λ st, (map2DataMappings st, floorDataMappings st, chasmDataMappings st,
          voxelDatas st, getVoxel st 1 0 1, getVoxel st 0 0 0)) <$>
    readFLOR sample_mif sample_inf sample_flor 2 2 sample_level =
  Some ([], [(0x0100, 3)],
        [(0x0D01, (false, false, false, false), 0);
         (0x0E00, (true, false, false, false), 1);
         (0x0C00, (false, true, false, false), 2)],
        [Chasm 7 false false false false Wet;
         Chasm 0 true false false false Lava;
         Chasm 5 false true false false Dry;
         Floor 1], 3, 0).
Proof. vm_compute. reflexivity. Qed.

Definition sample_wall_level : LevelData QArith_base.Q :=
  cacheInsert (WallKey 0x0404) (Wall 3 3 3 (Some 0) Menu) sample_level.

Lemma cache_lookup_exact_match_witness :
  lookupKey (H := Q_DoubleOps) (QArith_base.inject_Z 128) sample_mif sample_inf City
    sample_tables (WallKey 0x0404) sample_level = Some (0, sample_wall_level) ∧
  lookupKey (H := Q_DoubleOps) (QArith_base.inject_Z 128) sample_mif sample_inf City
    sample_tables (WallKey 0x0404) sample_wall_level = Some (0, sample_wall_level).
Proof.
  assert (Hfirst :
    lookupKey (H := Q_DoubleOps) (QArith_base.inject_Z 128) sample_mif sample_inf City
      sample_tables (WallKey 0x0404) sample_level = Some (0, sample_wall_level))
    by (vm_compute; reflexivity).
  split; [exact Hfirst|].
  destruct (cache_lookup_exact_match (H := Q_DoubleOps) (QArith_base.inject_Z 128)
              sample_mif sample_inf City sample_tables sample_level sample_level
              sample_wall_level (WallKey 0x0404) 0
              (cache_inv_empty _ _ _ _ _) (rtc_refl _ _) Hfirst)
    as (_ & _ & _ & Hagain & _).
  apply (Hagain _ _ (same_caches_refl _) (rtc_refl _ _)).
Defined.

Lemma map2_story_height_at_most_three_witness :
  getMap2VoxelHeight 0x8081 = 2 ∧
  ∃ st', readMAP2Voxel [0x8081] 1 1 0 0 sample_level = Some st' ∧
    voxels st' !! (0, 3, 0) = Some 0 ∧
    voxels st' !! (0, 5, 0) = voxels sample_level !! (0, 5, 0).
Proof.
  destruct (map2_story_height_at_most_three (H := Q_DoubleOps)
              (QArith_base.inject_Z 128) sample_mif sample_inf City sample_tables 0x8081)
    as (_ & _ & H2 & Hcol).
  split; [apply H2; reflexivity|].
  destruct (readMAP2Voxel [0x8081] 1 1 0 0 sample_level) as [st'|] eqn:Hrun;
    [|vm_compute in Hrun; discriminate].
  exists st'. split; [done|]. split.
  - vm_compute in Hrun. injection Hrun as <-. vm_compute. reflexivity.
  - apply (Hcol [0x8081] 1 1 0 0 sample_level st' eq_refl Hrun). lia.
Defined.

Lemma readFLOR_floor_or_chasm_witness :
  ∃ st', readFLOR sample_mif sample_inf sample_flor 2 2 sample_level = Some st' ∧
    ∃ i, voxels st' !! (1, 0, 1) = Some (i mod 65536) ∧
         getVoxelData st' i = Some (Floor 1).
Proof.
  destruct (readFLOR_floor_or_chasm (H := Q_DoubleOps) (QArith_base.inject_Z 128)
              sample_mif sample_inf City sample_tables sample_flor 2 2 sample_level)
    as (st' & Hrun & Hall).
  - apply cache_inv_empty.
  - lia.
  - lia.
  - reflexivity.
  - exists st'. split; [done|].
    destruct (Hall 1 1) as (c & i & d & Hc & Hv & Hat & _ & Hfloor & _); [lia|lia|].
    vm_compute in Hc. injection Hc as <-.
    exists i. split; [done|]. rewrite Hat. f_equal. apply Hfloor. reflexivity.
Defined.

(** * ExteriorLevelData.cpp *)

(** [Int2] with the two operators the generators use. *)
Definition Int2 : Type := Z * Z.
Definition Int2_add (a b : Int2) : Int2 := (a.1 + b.1, a.2 + b.2).
Definition Int2_scale (a : Int2) (m : Z) : Int2 := (a.1 * m, a.2 * m).

(** ** revisePalaceGraphics *)

Module PalaceGraphics.

(** The byte offset [(z * 2) + ((x * 2) * gridDepth)] into the array of
    16-bit voxels is element [z + x * gridDepth]. [None] is a read outside
    the array. *)
Definition getMap1Voxel (map1 : list Z) (gridDepth x z : Z) : option Z :=
  readLE16 map1 (z + (x * gridDepth)).

(** [DebugAssertIndex] guards the store; [None] is its failure. *)
Definition setMap1Voxel (map1 : list Z) (gridDepth x z voxel : Z) : option (list Z) :=
  let index := z + (x * gridDepth) in
  if (0 <=? index) && (index <? Z.of_nat (length map1))
  then Some (<[Z.to_nat index := voxel]> map1)
  else None.

Inductive Side := SideNone | North | South | East | West.

Record SearchResult := mkSearchResult { side : Side; offset : Z }.

Definition mostSigNibble (voxel : Z) : Z := Z.shiftr (Z.land voxel 0xF000) 12.

Definition isPalaceBlock (map1 : list Z) (gridDepth x z : Z) : option bool :=
  voxel ← getMap1Voxel map1 gridDepth x z;
  Some (mostSigNibble voxel =? 0x9).

Definition isGateBlock (map1 : list Z) (gridDepth x z : Z) : option bool :=
  voxel ← getMap1Voxel map1 gridDepth x z;
  Some (mostSigNibble voxel =? 0xA).

(** North and south edges, [z] from 1 while [z < gridDepth - 1]; [n] is the
    number of iterations left. The inner [None] is the loop running out. *)
Fixpoint searchNorthSouth (map1 : list Z) (gridWidth gridDepth : Z) (n : nat) (z : Z)
  : option (option SearchResult) :=
  match n with
  | O => Some None
  | S n' =>
      let northX := 0 in
      let southX := gridWidth - 1 in
      isNorth ← isPalaceBlock map1 gridDepth northX z;
      if isNorth : bool then Some (Some (mkSearchResult North z))
      else
        isSouth ← isPalaceBlock map1 gridDepth southX z;
        if isSouth : bool then Some (Some (mkSearchResult South z))
        else searchNorthSouth map1 gridWidth gridDepth n' (z + 1)
  end.

(** East and west edges, [x] from 1 while [x < gridWidth - 1]. *)
Fixpoint searchEastWest (map1 : list Z) (gridWidth gridDepth : Z) (n : nat) (x : Z)
  : option (option SearchResult) :=
  match n with
  | O => Some None
  | S n' =>
      let eastZ := 0 in
      let westZ := gridDepth - 1 in
      isEast ← isPalaceBlock map1 gridDepth x eastZ;
      if isEast : bool then Some (Some (mkSearchResult East x))
      else
        isWest ← isPalaceBlock map1 gridDepth x westZ;
        if isWest : bool then Some (Some (mkSearchResult West x))
        else searchEastWest map1 gridWidth gridDepth n' (x + 1)
  end.

Definition search (map1 : list Z) (gridWidth gridDepth : Z) : option SearchResult :=
  ns ← searchNorthSouth map1 gridWidth gridDepth (Z.to_nat (gridDepth - 1 - 1)) 1;
  match ns with
  | Some r => Some r
  | None =>
      ew ← searchEastWest map1 gridWidth gridDepth (Z.to_nat (gridWidth - 1 - 1)) 1;
      match ew with
      | Some r => Some r
      | None => Some (mkSearchResult SideNone 0)
      end
  end.

Definition NO_GATE : Z := -1.
Definition MAX_GATE_DIST : Z := 8.

(** [while ((i < MAX_GATE_DIST) && !isGateBlock(position))]; [n] is
    [MAX_GATE_DIST - i]. *)
Fixpoint gateLoop (map1 : list Z) (gridDepth : Z) (dir : Int2) (n : nat) (i : Z)
    (position : Int2) : option Z :=
  match n with
  | O => Some i
  | S n' =>
      isGate ← isGateBlock map1 gridDepth position.1 position.2;
      if isGate : bool then Some i
      else gateLoop map1 gridDepth dir n' (i + 1) (Int2_add position dir)
  end.

Definition getGateDistance (map1 : list Z) (gridDepth : Z) (palaceVoxel dir : Int2)
  : option Z :=
  i ← gateLoop map1 gridDepth dir (Z.to_nat MAX_GATE_DIST) 0 palaceVoxel;
  Some (if i <? MAX_GATE_DIST then i else NO_GATE).

Definition northSouthPalaceStep : Int2 := (0, -1).
Definition eastWestPalaceStep : Int2 := (-1, 0).

Definition revisePalaceGraphics (map1 : list Z) (gridWidth gridDepth : Z)
  : option (list Z) :=
  result ← search map1 gridWidth gridDepth;
  let plan : option (Int2 * Int2 * Int2 * (Z * Z * Z)) :=
    match side result with
    | North =>
        Some ((gridWidth - 1, offset result), northSouthPalaceStep, (-1, 0),
              (0xA5B5, 0xA5B4, 0xA1B3))
    | South =>
        Some ((0, offset result), northSouthPalaceStep, (1, 0),
              (0xA534, 0xA535, 0xA133))
    | East =>
        Some ((offset result, gridDepth - 1), eastWestPalaceStep, (0, -1),
              (0xA574, 0xA575, 0xA173))
    | West =>
        Some ((offset result, 0), eastWestPalaceStep, (0, 1),
              (0xA5F5, 0xA5F4, 0xA1F3))
    | SideNone => None
    end in
  match plan with
  | Some (firstPalaceVoxel, palaceStep, gateDir,
          (firstPalaceVoxelID, secondPalaceVoxelID, gateVoxelID)) =>
      let secondPalaceVoxel := Int2_add firstPalaceVoxel palaceStep in
      gateDist ← getGateDistance map1 gridDepth firstPalaceVoxel gateDir;
      let firstGateVoxel := Int2_add firstPalaceVoxel (Int2_scale gateDir gateDist) in
      let secondGateVoxel := Int2_add firstGateVoxel palaceStep in
      m1 ← setMap1Voxel map1 gridDepth firstPalaceVoxel.1 firstPalaceVoxel.2
             firstPalaceVoxelID;
      m2 ← setMap1Voxel m1 gridDepth secondPalaceVoxel.1 secondPalaceVoxel.2
             secondPalaceVoxelID;
      if negb (gateDist =? NO_GATE) then
        m3 ← setMap1Voxel m2 gridDepth firstGateVoxel.1 firstGateVoxel.2 gateVoxelID;
        setMap1Voxel m3 gridDepth secondGateVoxel.1 secondGateVoxel.2 gateVoxelID
      else Some m2
  | None => Some map1
  end.



(** *** Reading and writing MAP1 cells *)


Section Grid.
Variables (gridWidth gridDepth : Z).

Definition in_grid (x z : Z) : Prop := 0 ≤ x < gridWidth ∧ 0 ≤ z < gridDepth.

Definition grid_sized (map1 : list Z) : Prop :=
  Z.of_nat (length map1) = gridWidth * gridDepth.

Lemma index_in_range (x z : Z) :
  in_grid x z → 0 ≤ z + x * gridDepth < gridWidth * gridDepth.
Proof. intros [Hx Hz]. nia. Qed.


Lemma getMap1Voxel_in_grid (map1 : list Z) (x z : Z) :
  grid_sized map1 → in_grid x z → is_Some (getMap1Voxel map1 gridDepth x z).
Proof.
  intros Hlen Hin. pose proof (index_in_range x z Hin) as Hi.
  unfold getMap1Voxel, readLE16. destruct (Z.ltb_spec (z + x * gridDepth) 0); [lia|].
  destruct (map1 !! Z.to_nat (z + x * gridDepth)) as [v|] eqn:Hv; [by eexists|].
  apply lookup_ge_None in Hv. unfold grid_sized in Hlen. lia.
Qed.

Lemma isPalaceBlock_in_grid (map1 : list Z) (x z : Z) :
  grid_sized map1 → in_grid x z → is_Some (isPalaceBlock map1 gridDepth x z).
Proof.
  intros Hlen Hin. unfold isPalaceBlock.
  destruct (getMap1Voxel_in_grid map1 x z Hlen Hin) as [v ->]. by eexists.
Qed.

Lemma isGateBlock_in_grid (map1 : list Z) (x z : Z) :
  grid_sized map1 → in_grid x z → is_Some (isGateBlock map1 gridDepth x z).
Proof.
  intros Hlen Hin. unfold isGateBlock.
  destruct (getMap1Voxel_in_grid map1 x z Hlen Hin) as [v ->]. by eexists.
Qed.


End Grid.

(** *** What the edge search reports *)




(** *** The gate probe from (x0, z0) towards smaller x *)






(** With a gate marker two cells from the first palace voxel, at (5, 1):
    the palace codes go to (7, 1) and (7, 0), the gate code to (5, 1) and
    (5, 0). *)
Example revisePalaceGraphics_with_gate :
  revisePalaceGraphics
    ([0; 0x9000; 0] ++ replicate 12 0 ++ [0; 0xA000; 0] ++ replicate 6 0) 8 3 =
  Some ([0; 0x9000; 0] ++ replicate 12 0 ++ [0xA1B3; 0xA1B3; 0] ++ replicate 3 0
        ++ [0xA5B4; 0xA5B5; 0]).
Proof. vm_compute. reflexivity. Qed.




End PalaceGraphics.

(** ** Buffers and sample generators *)

(** Modelled from the spec: [Buffer2D] (components/utilities/Buffer2D.h), a
    width x height array addressed row by row: element (x, y) is at
    [x + y * width]; an access outside the buffer fails. *)
Record Buffer2D := mkBuffer2D {
  buf_width : Z;
  buf_height : Z;
  buf_data : list Z
}.

Definition Buffer2D_index (b : Buffer2D) (x y : Z) : option nat :=
  if (0 <=? x) && (x <? buf_width b) && (0 <=? y) && (y <? buf_height b)
  then Some (Z.to_nat (x + y * buf_width b))
  else None.

Definition Buffer2D_get (b : Buffer2D) (x y : Z) : option Z :=
  i ← Buffer2D_index b x y; buf_data b !! i.

Definition Buffer2D_set (x y value : Z) (b : Buffer2D) : option Buffer2D :=
  i ← Buffer2D_index b x y;
  if decide (i < length (buf_data b))%nat
  then Some (mkBuffer2D (buf_width b) (buf_height b) (<[i := value]> (buf_data b)))
  else None.

(** A linear congruential generator with a 32-bit state and 16-bit outputs,
    as section 4.1 of the specification describes [ArenaRandom]; it is the
    instance the generators are run with on concrete seeds. *)
Definition lcg_next (value : Z) : Z * Z :=
  let value' := (value * 7143469) mod 2 ^ 32 in
  (Z.land (Z.shiftr value' 16) 0xFFFF, value').

Definition LcgRandom : ArenaRandom Z :=
  {| srand := fun seed => seed mod 2 ^ 32; next := lcg_next |}.

(** A generator that replays a fixed list of outputs (and then zeros), to
    drive the generators through chosen draws. *)
Definition ScriptedRandom (script : list Z) : ArenaRandom (list Z) :=
  {| srand := fun _ => script;
     next := fun s => match s with [] => (0, []) | v :: s' => (v, s') end |}.

(** ** generateWildernessIndices *)

(** [ExeData::Wilderness]: the five pools of wilderness block IDs. *)
Record WildernessData := {
  normalBlocks : list Z;
  villageBlocks : list Z;
  dungeonBlocks : list Z;
  tavernBlocks : list Z;
  templeBlocks : list Z
}.

Section Wilderness.
Context {R : Type} `{ArenaRandom R}.

(** The wilderness block list to draw from. *)
Definition selectBlockList (wildData : WildernessData) (randVal : Z) : list Z :=
  let normalVal := 0x6666 in
  let villageVal := 0x4000 in
  let dungeonVal := 0x2666 in
  let tavernVal := 0x1999 in
  if randVal <? normalVal then normalBlocks wildData
  else
    let randVal := randVal - normalVal in
    if randVal <? villageVal then villageBlocks wildData
    else
      let randVal := randVal - villageVal in
      if randVal <? dungeonVal then dungeonBlocks wildData
      else
        let randVal := randVal - dungeonVal in
        if randVal <? tavernVal then tavernBlocks wildData
        else templeBlocks wildData.

(** The generator passed to [std::generate]: one index per call. An empty
    block list makes the modulus zero; [None] is that division. *)
Definition generateIndex (wildData : WildernessData) (random : R) : option (Z * R) :=
  let '(randVal, random) := next random in
  let blockList := selectBlockList wildData randVal in
  let '(r, random) := next random in
  if Z.of_nat (length blockList) =? 0 then None
  else
    let blockListIndex := Z.rem (Z.land r 0xFF) (Z.of_nat (length blockList)) in
    v ← at_ blockList blockListIndex;
    Some (v, random).

(** [std::generate]: [n] calls, first to last. *)
Fixpoint generate (n : nat) (g : R → option (Z * R)) (random : R)
  : option (list Z * R) :=
  match n with
  | O => Some ([], random)
  | S n' =>
      '(v, random) ← g random;
      '(vs, random) ← generate n' g random;
      Some (v :: vs, random)
  end.

Definition generateWildernessIndices (wildSeed : Z) (wildData : WildernessData)
  : option Buffer2D :=
  let wildWidth := 64 in
  let wildHeight := 64 in
  let random := srand wildSeed in
  '(data, _) ← generate (Z.to_nat (wildWidth * wildHeight)) (generateIndex wildData) random;
  let indices := mkBuffer2D wildWidth wildHeight data in
  let cityX := wildWidth / 2 - 1 in
  let cityY := wildHeight / 2 - 1 in
  indices ← Buffer2D_set cityX cityY 1 indices;
  indices ← Buffer2D_set (cityX + 1) cityY 2 indices;
  indices ← Buffer2D_set cityX (cityY + 1) 3 indices;
  Buffer2D_set (cityX + 1) (cityY + 1) 4 indices.

Lemma generateIndex_total (wildData : WildernessData) (random : R) :
  normalBlocks wildData ≠ [] → villageBlocks wildData ≠ [] →
  dungeonBlocks wildData ≠ [] → tavernBlocks wildData ≠ [] →
  templeBlocks wildData ≠ [] →
  is_Some (generateIndex wildData random).
Proof.
  intros Hn Hv Hd Hta Hte. unfold generateIndex.
  destruct (next random) as [randVal random1].
  destruct (next random1) as [r random2].
  assert (Hne : selectBlockList wildData randVal ≠ []).
  { unfold selectBlockList. repeat case_match; done. }
  set (blockList := selectBlockList wildData randVal) in *.
  assert (0 < Z.of_nat (length blockList)) as Hlen.
  { destruct blockList; [done|]. simpl. lia. }
  destruct (Z.eqb_spec (Z.of_nat (length blockList)) 0); [lia|].
  assert (Hr : 0 ≤ Z.land r 255) by (apply Z.land_nonneg; lia).
  pose proof (Z.rem_bound_pos (Z.land r 255) (Z.of_nat (length blockList)) Hr Hlen) as Hb.
  unfold at_. destruct (Z.ltb_spec (Z.rem (Z.land r 255) (Z.of_nat (length blockList))) 0); [lia|].
  destruct (blockList !! _) as [v|] eqn:Hv'; [by eexists|].
  apply lookup_ge_None in Hv'. lia.
Qed.

Lemma generate_total (g : R → option (Z * R)) :
  (∀ random, is_Some (g random)) →
  ∀ (n : nat) (random : R),
    ∃ data random', generate n g random = Some (data, random') ∧ length data = n.
Proof.
  intros Hg. induction n as [|n IH]; intros random; simpl.
  - by exists [], random.
  - destruct (Hg random) as [[v random1] ->]. simpl.
    destruct (IH random1) as (vs & random2 & -> & Hlen). simpl.
    exists (v :: vs), random2. split; [done|]. simpl. by rewrite Hlen.
Qed.

Lemma generate_length (g : R → option (Z * R)) :
  ∀ (n : nat) (random random' : R) (data : list Z),
    generate n g random = Some (data, random') → length data = n.
Proof.
  induction n as [|n IH]; intros random random' data; simpl.
  - by intros [= <- _].
  - destruct (g random) as [[v random1]|]; simpl; [|done].
    destruct (generate n g random1) as [[vs random2]|] eqn:Hg; simpl; [|done].
    intros [= <- _]. simpl. f_equal. by eapply IH.
Qed.

(** The four stores at the centre of a 64 x 64 buffer. *)
Lemma city_indices_set (data : list Z) :
  length data = 4096%nat →
  ∃ indices,
    (i1 ← Buffer2D_set 31 31 1 (mkBuffer2D 64 64 data);
     i2 ← Buffer2D_set 32 31 2 i1;
     i3 ← Buffer2D_set 31 32 3 i2;
     Buffer2D_set 32 32 4 i3) = Some indices ∧
    buf_width indices = 64 ∧ buf_height indices = 64 ∧
    length (buf_data indices) = 4096%nat ∧
    Buffer2D_get indices 31 31 = Some 1 ∧
    Buffer2D_get indices 32 31 = Some 2 ∧
    Buffer2D_get indices 31 32 = Some 3 ∧
    Buffer2D_get indices 32 32 = Some 4.
Proof.
  intros Hlen. unfold Buffer2D_set, Buffer2D_get, Buffer2D_index. simpl.
  repeat (case_decide; [simpl|rewrite ?length_insert in *; lia]).
  eexists. split; [done|]. simpl. rewrite !length_insert.
  repeat (split; [done|]).
  change (Z.to_nat (31 + 31 * 64)) with 2015%nat.
  change (Z.to_nat (32 + 31 * 64)) with 2016%nat.
  change (Z.to_nat (31 + 32 * 64)) with 2079%nat.
  change (Z.to_nat (32 + 32 * 64)) with 2080%nat.
  repeat split.
  - rewrite !list_lookup_insert_ne by lia. rewrite list_lookup_insert_eq; [done|lia].
  - rewrite !list_lookup_insert_ne by lia.
    rewrite list_lookup_insert_eq; [done|]. rewrite !length_insert. lia.
  - rewrite !list_lookup_insert_ne by lia.
    rewrite list_lookup_insert_eq; [done|]. rewrite !length_insert. lia.
  - rewrite list_lookup_insert_eq; [done|]. rewrite !length_insert. lia.
Qed.

(** C4. For every wilderness seed (and every generator behind [next]), when
    the five block pools are non-empty the 64 x 64 grid of
    [generateWildernessIndices] is produced and holds 1, 2, 3, 4 at
    (31, 31), (32, 31), (31, 32), (32, 32), whatever was drawn for those
    cells. *)
Theorem generateWildernessIndices_city_cells (wildSeed : Z) (wildData : WildernessData) :
  normalBlocks wildData ≠ [] → villageBlocks wildData ≠ [] →
  dungeonBlocks wildData ≠ [] → tavernBlocks wildData ≠ [] →
  templeBlocks wildData ≠ [] →
  ∃ indices,
    generateWildernessIndices wildSeed wildData = Some indices ∧
    buf_width indices = 64 ∧ buf_height indices = 64 ∧
    length (buf_data indices) = 4096%nat ∧
    Buffer2D_get indices 31 31 = Some 1 ∧
    Buffer2D_get indices 32 31 = Some 2 ∧
    Buffer2D_get indices 31 32 = Some 3 ∧
    Buffer2D_get indices 32 32 = Some 4.
Proof.
  intros Hn Hv Hd Hta Hte. unfold generateWildernessIndices.
  destruct (generate_total (generateIndex wildData)) with (n := Z.to_nat (64 * 64))
    (random := srand wildSeed) as (data & random' & Hgen & Hlen).
  { intros random. by apply generateIndex_total. }
  rewrite Hgen. simpl.
  change (64 / 2 - 1) with 31. change (31 + 1) with 32.
  apply city_indices_set. by rewrite Hlen.
Qed.

(** Whenever the generation returns at all, the centre cells are the four
    city values. *)
Lemma wilderness_city_cells_if_returned (wildSeed : Z)
    (wildData : WildernessData) (indices : Buffer2D) :
  generateWildernessIndices wildSeed wildData = Some indices →
  Buffer2D_get indices 31 31 = Some 1 ∧
  Buffer2D_get indices 32 31 = Some 2 ∧
  Buffer2D_get indices 31 32 = Some 3 ∧
  Buffer2D_get indices 32 32 = Some 4.
Proof.
  unfold generateWildernessIndices.
  destruct (generate _ _ _) as [[data random']|] eqn:Hgen; simpl; [|done].
  apply generate_length in Hgen.
  change (64 / 2 - 1) with 31. change (31 + 1) with 32.
  destruct (city_indices_set data) as (ind & -> & _ & _ & _ & Hc); [done|].
  by intros [= <-].
Qed.

End Wilderness.

Definition sample_wildData : WildernessData :=
  {| normalBlocks := [5; 6; 7; 8; 9; 10];
     villageBlocks := [20; 21; 22];
     dungeonBlocks := [30; 31];
     tavernBlocks := [40];
     templeBlocks := [50; 51] |}.

Lemma generateWildernessIndices_city_cells_witness :
  ∃ indices,
    generateWildernessIndices (H := LcgRandom) 0x12345678 sample_wildData = Some indices ∧
    Buffer2D_get indices 31 31 = Some 1 ∧
    Buffer2D_get indices 32 31 = Some 2 ∧
    Buffer2D_get indices 31 32 = Some 3 ∧
    Buffer2D_get indices 32 32 = Some 4 ∧
    Buffer2D_get indices 0 0 = Some 8.
Proof.
  destruct (generateWildernessIndices_city_cells (H := LcgRandom) 0x12345678
              sample_wildData)
    as (indices & Hrun & _ & _ & _ & H1 & H2 & H3 & H4); [done|done|done|done|done|].
  exists indices.
  split; [exact Hrun|]. split; [exact H1|]. split; [exact H2|].
  split; [exact H3|]. split; [exact H4|].
  vm_compute in Hrun. injection Hrun as <-. vm_compute. reflexivity.
Defined.

(** ** generateCity *)

Inductive BlockType :=
| Empty | Reserved | Equipment | MagesGuild
| NobleHouse | Temple | Tavern | Spacer | Houses.

Global Instance BlockType_eq_dec : EqDecision BlockType.
Proof. solve_decision. Defined.

(** [static_cast<int>(block)] *)
Definition BlockType_to_int (b : BlockType) : Z :=
  match b with
  | Empty => 0 | Reserved => 1 | Equipment => 2 | MagesGuild => 3
  | NobleHouse => 4 | Temple => 5 | Tavern => 6 | Spacer => 7 | Houses => 8
  end.

(** [MIFFile::Level] and [MIFFile] as far as the generator reads them. *)
Record MIFLevel := mkMIFLevel {
  level_flor : list Z;
  level_map1 : list Z;
  level_map2 : list Z
}.

Record MIFFile := mkMIFFile {
  mif_getWidth : Z;
  mif_getDepth : Z;
  mif_getLevels : list MIFLevel
}.

(** The helpers of Assets/MIFUtils.h the generator calls; [None] is an
    index outside their tables. *)
Record MIFUtils := {
  getCityBlockCode : Z → option string;
  getCityBlockRotation : Z → option string;
  getCityBlockRotationCount : Z;
  getCityBlockVariations : Z → option Z;
  makeCityBlockMifName : string → Z → string → string
}.

(** A block template loaded while building the city: where in the plan,
    which block, and the rotation and variation drawn for it. *)
Record LoadedBlock := mkLoadedBlock {
  lb_xDim : Z;
  lb_yDim : Z;
  lb_block : BlockType;
  lb_rotation : string;
  lb_variationCount : Z;
  lb_variationDraw : Z;
  lb_variation : Z;
  lb_mifName : string
}.

(** The state of the block-loading loop. [cb_loaded] records the templates
    resolved so far, in order. *)
Record CityBuild (R : Type) := mkCityBuild {
  cb_random : R;
  cb_flor : list Z;
  cb_map1 : list Z;
  cb_map2 : list Z;
  cb_xDim : Z;
  cb_yDim : Z;
  cb_loaded : list LoadedBlock
}.

Arguments mkCityBuild {R}.
Arguments cb_random {R}.
Arguments cb_flor {R}.
Arguments cb_map1 {R}.
Arguments cb_map2 {R}.
Arguments cb_xDim {R}.
Arguments cb_yDim {R}.
Arguments cb_loaded {R}.

(** [std::max(random.next() % variationCount, 1)] *)
Definition cityBlockVariation (draw variationCount : Z) : Z :=
  Z.max (Z.rem draw variationCount) 1.

(** The band of a draw in the city plan. *)
Definition planBlockType (randVal : Z) : BlockType :=
  if randVal <=? 0x7333 then Houses
  else if randVal <=? 0xA666 then Tavern
  else if randVal <=? 0xCCCC then Equipment
  else if randVal <=? 0xE666 then Temple
  else NobleHouse.

(** The loop over the reserved blocks: an index outside the plan is
    skipped. *)
Definition setReserved (plan : list BlockType) (block : nat) : list BlockType :=
  if decide (block < length plan)%nat then <[block := Reserved]> plan else plan.

(** The [writeRow] lambda: [std::copy] of [width] voxels from
    [src + srcIndex] to [dst + dstIndex]; [None] is a range outside either
    vector. *)
Definition writeRow (width srcIndex dstIndex : Z) (src dst : list Z) : option (list Z) :=
  if (0 <=? width) && (0 <=? srcIndex) && (srcIndex + width <=? Z.of_nat (length src))
     && (0 <=? dstIndex) && (dstIndex + width <=? Z.of_nat (length dst))
  then Some (take (Z.to_nat dstIndex) dst
             ++ take (Z.to_nat width) (drop (Z.to_nat srcIndex) src)
             ++ drop (Z.to_nat (dstIndex + width)) dst)
  else None.

Section City.
Context {R : Type} `{ArenaRandom R}.
Variable utils : MIFUtils.
Variable cityBlockMifs : gmap string MIFFile.

(** The [placeBlock] lambda. Its do-while loop draws until it hits an empty
    plan cell; [fuel] bounds the draws, and [None] is also what a zero
    [citySize] (division by zero) and [plan.at] out of range give. *)
Fixpoint placeBlock (fuel : nat) (citySize : Z) (blockType : BlockType)
    (plan : list BlockType) (random : R) : option (list BlockType * R) :=
  match fuel with
  | O => None
  | S fuel' =>
      let '(r, random) := next random in
      if citySize =? 0 then None
      else
        let planIndex := Z.rem r citySize in
        cell ← at_ plan planIndex;
        if decide (cell = Empty)
        then Some (<[Z.to_nat planIndex := blockType]> plan, random)
        else placeBlock fuel' citySize blockType plan random
  end.

(** [for (remainingBlocks = emptyBlocksInPlan; remainingBlocks > 0; ...)] *)
Fixpoint fillPlan (fuel : nat) (citySize : Z) (remainingBlocks : nat)
    (plan : list BlockType) (random : R) : option (list BlockType * R) :=
  match remainingBlocks with
  | O => Some (plan, random)
  | S remainingBlocks' =>
      let '(randVal, random) := next random in
      let blockType := planBlockType randVal in
      '(plan, random) ← placeBlock fuel citySize blockType plan random;
      fillPlan fuel citySize remainingBlocks' plan random
  end.

(** Copying the rows of one block template into the three layers. *)
Definition copyBlock (blockMif : MIFFile) (blockLevel : MIFLevel)
    (gridDepth xOffset zOffset : Z) (dst : list Z * list Z * list Z)
  : option (list Z * list Z * list Z) :=
  forZ 0 (mif_getDepth blockMif) (fun z '(dstFlor, dstMap1, dstMap2) =>
    let srcIndex := z * mif_getWidth blockMif in
    let dstIndex := xOffset + ((z + zOffset) * gridDepth) in
    dstFlor ← writeRow (mif_getWidth blockMif) srcIndex dstIndex
                (level_flor blockLevel) dstFlor;
    dstMap1 ← writeRow (mif_getWidth blockMif) srcIndex dstIndex
                (level_map1 blockLevel) dstMap1;
    dstMap2 ← writeRow (mif_getWidth blockMif) srcIndex dstIndex
                (level_map2 blockLevel) dstMap2;
    Some (dstFlor, dstMap1, dstMap2)) dst.

(** The body of [for (const BlockType block : plan)]. *)
Definition buildBlock (cityDim gridDepth : Z) (startPosition : Int2)
    (block : BlockType) (st : CityBuild R) : option (CityBuild R) :=
  st1 ←
    (if decide (block = Reserved) then Some st
     else
       let blockIndex := BlockType_to_int block - 2 in
       blockCode ← getCityBlockCode utils blockIndex;
       let '(r1, random) := next (cb_random st) in
       if getCityBlockRotationCount utils =? 0 then None
       else
         rotation ← getCityBlockRotation utils
                      (Z.rem r1 (getCityBlockRotationCount utils));
         variationCount ← getCityBlockVariations utils blockIndex;
         let '(r2, random) := next random in
         if variationCount =? 0 then None
         else
           let variation := cityBlockVariation r2 variationCount in
           let blockMifName := makeCityBlockMifName utils blockCode variation rotation in
           blockMif ← cityBlockMifs !! blockMifName;
           blockLevel ← head (mif_getLevels blockMif);
           let xOffset := startPosition.1 + (cb_xDim st * 20) in
           let zOffset := startPosition.2 + (cb_yDim st * 20) in
           '(dstFlor, dstMap1, dstMap2) ←
             copyBlock blockMif blockLevel gridDepth xOffset zOffset
               (cb_flor st, cb_map1 st, cb_map2 st);
           Some (mkCityBuild random dstFlor dstMap1 dstMap2 (cb_xDim st) (cb_yDim st)
                   (cb_loaded st ++
                    [mkLoadedBlock (cb_xDim st) (cb_yDim st) block rotation
                       variationCount r2 variation blockMifName])));
  let xDim := cb_xDim st1 + 1 in
  Some (if xDim =? cityDim
        then mkCityBuild (cb_random st1) (cb_flor st1) (cb_map1 st1) (cb_map2 st1)
               0 (cb_yDim st1 + 1) (cb_loaded st1)
        else mkCityBuild (cb_random st1) (cb_flor st1) (cb_map1 st1) (cb_map2 st1)
               xDim (cb_yDim st1) (cb_loaded st1)).

Fixpoint buildCity (cityDim gridDepth : Z) (startPosition : Int2)
    (plan : list BlockType) (st : CityBuild R) : option (CityBuild R) :=
  match plan with
  | [] => Some st
  | block :: plan' =>
      st' ← buildBlock cityDim gridDepth startPosition block st;
      buildCity cityDim gridDepth startPosition plan' st'
  end.

(** The city plan: reserved blocks, the six initial placements, then one
    draw per remaining empty cell. *)
Definition planCity (fuel : nat) (cityDim : Z) (reservedBlocks : list nat) (random : R)
  : option (list BlockType * R) :=
  let citySize := cityDim * cityDim in
  let plan := replicate (Z.to_nat citySize) Empty in
  let plan := foldl setReserved plan reservedBlocks in
  '(plan, random) ← placeBlock fuel citySize Equipment plan random;
  '(plan, random) ← placeBlock fuel citySize MagesGuild plan random;
  '(plan, random) ← placeBlock fuel citySize NobleHouse plan random;
  '(plan, random) ← placeBlock fuel citySize Temple plan random;
  '(plan, random) ← placeBlock fuel citySize Tavern plan random;
  '(plan, random) ← placeBlock fuel citySize Spacer plan random;
  let emptyBlocksInPlan := length (filter (fun b => b = Empty) plan) in
  fillPlan fuel citySize emptyBlocksInPlan plan random.

(** [generateCity]: the plan it assigned and the state the block loop ends
    in (generator, the three layers, the templates loaded). [citySeed] only
    feeds [getLocalCityPoint], whose result is not used. *)
Definition generateCity (fuel : nat) (citySeed cityDim gridDepth : Z)
    (reservedBlocks : list nat) (startPosition : Int2) (random : R)
    (dstFlor dstMap1 dstMap2 : list Z) : option (list BlockType * CityBuild R) :=
  '(plan, random) ← planCity fuel cityDim reservedBlocks random;
  st ← buildCity cityDim gridDepth startPosition plan
         (mkCityBuild random dstFlor dstMap1 dstMap2 0 0 []);
  Some (plan, st).

(** [loadCity] seeds the generator with the city seed and runs
    [generateCity] on it. *)
Definition generateCityFromSeed (fuel : nat) (citySeed cityDim gridDepth : Z)
    (reservedBlocks : list nat) (startPosition : Int2)
    (dstFlor dstMap1 dstMap2 : list Z) : option (list BlockType * CityBuild R) :=
  generateCity fuel citySeed cityDim gridDepth reservedBlocks startPosition
    (srand citySeed) dstFlor dstMap1 dstMap2.

(** *** Fuel: more draws allowed never changes a result *)





(** The seed argument itself is not read: the draws come from the generator
    passed in. *)
Lemma generateCity_seed_unused (fuel : nat) (citySeed citySeed' cityDim gridDepth : Z)
    (reservedBlocks : list nat) (startPosition : Int2) (random : R)
    (dstFlor dstMap1 dstMap2 : list Z) :
  generateCity fuel citySeed cityDim gridDepth reservedBlocks startPosition random
    dstFlor dstMap1 dstMap2 =
  generateCity fuel citySeed' cityDim gridDepth reservedBlocks startPosition random
    dstFlor dstMap1 dstMap2.
Proof. reflexivity. Qed.

(** *** The plan *)

Lemma setReserved_length (plan : list BlockType) (block : nat) :
  length (setReserved plan block) = length plan.
Proof. unfold setReserved. case_decide; [apply length_insert|done]. Qed.

Lemma foldl_setReserved_length (reservedBlocks : list nat) (plan : list BlockType) :
  length (foldl setReserved plan reservedBlocks) = length plan.
Proof.
  revert plan. induction reservedBlocks as [|b bs IH]; intros plan; simpl; [done|].
  by rewrite IH, setReserved_length.
Qed.

Lemma setReserved_out_of_range (plan : list BlockType) (block : nat) :
  (length plan ≤ block)%nat → setReserved plan block = plan.
Proof. intros Hge. unfold setReserved. case_decide; [lia|done]. Qed.

Lemma setReserved_keeps (plan : list BlockType) (block i : nat) :
  plan !! i = Some Reserved → setReserved plan block !! i = Some Reserved.
Proof.
  intros Hi. unfold setReserved. case_decide; [|done].
  destruct (decide (block = i)) as [->|Hne].
  - by rewrite list_lookup_insert_eq.
  - by rewrite list_lookup_insert_ne.
Qed.

Lemma foldl_setReserved_keeps (reservedBlocks : list nat) (plan : list BlockType) (i : nat) :
  plan !! i = Some Reserved →
  foldl setReserved plan reservedBlocks !! i = Some Reserved.
Proof.
  revert plan. induction reservedBlocks as [|b bs IH]; intros plan Hi; simpl; [done|].
  apply IH. by apply setReserved_keeps.
Qed.

(** Every in-range entry marks its cell. *)
Lemma foldl_setReserved_marks (reservedBlocks : list nat) (plan : list BlockType)
    (block : nat) :
  block ∈ reservedBlocks → (block < length plan)%nat →
  foldl setReserved plan reservedBlocks !! block = Some Reserved.
Proof.
  revert plan. induction reservedBlocks as [|b bs IH]; intros plan Hin Hlt; simpl.
  - by apply elem_of_nil in Hin.
  - apply elem_of_cons in Hin as [->|Hin].
    + apply foldl_setReserved_keeps. unfold setReserved. case_decide; [|lia].
      by rewrite list_lookup_insert_eq.
    + apply IH; [done|]. by rewrite setReserved_length.
Qed.

(** Cells no entry names stay as they were. *)
Lemma foldl_setReserved_other (reservedBlocks : list nat) (plan : list BlockType)
    (i : nat) :
  i ∉ reservedBlocks →
  foldl setReserved plan reservedBlocks !! i = plan !! i.
Proof.
  revert plan. induction reservedBlocks as [|b bs IH]; intros plan Hnot; simpl; [done|].
  apply not_elem_of_cons in Hnot as [Hne Hnot]. rewrite IH by done.
  unfold setReserved. case_decide; [|done]. by rewrite list_lookup_insert_ne.
Qed.

(** Out-of-range entries can be dropped from the list without changing the
    plan. *)
Lemma foldl_setReserved_filter (reservedBlocks : list nat) (plan : list BlockType) :
  foldl setReserved plan reservedBlocks =
  foldl setReserved plan (filter (fun b => (b < length plan)%nat) reservedBlocks).
Proof.
  revert plan. induction reservedBlocks as [|b bs IH]; intros plan; simpl; [done|].
  rewrite filter_cons. case_decide as Hb.
  - simpl. rewrite IH. by rewrite setReserved_length.
  - rewrite setReserved_out_of_range by lia. apply IH.
Qed.

(** [placeBlock] writes into an empty cell only. *)
Lemma placeBlock_keeps (fuel : nat) (citySize : Z) (blockType : BlockType)
    (plan plan' : list BlockType) (random random' : R) :
  placeBlock fuel citySize blockType plan random = Some (plan', random') →
  length plan' = length plan ∧
  ∀ i b, plan !! i = Some b → b ≠ Empty → plan' !! i = Some b.
Proof.
  revert random. induction fuel as [|fuel IH]; intros random; [done|]. simpl.
  destruct (next random) as [v random1].
  destruct (citySize =? 0); [done|].
  destruct (at_ plan (Z.rem v citySize)) as [cell|] eqn:Hcell; simpl; [|done].
  destruct (decide (cell = Empty)) as [->|Hne]; [|apply IH].
  intros [= <- <-]. split; [apply length_insert|].
  intros i b Hi Hb. rewrite list_lookup_insert_ne; [done|].
  intros <-. unfold at_ in Hcell. destruct (Z.rem v citySize <? 0); [done|]. congruence.
Qed.

Lemma fillPlan_keeps (fuel : nat) (citySize : Z) (remainingBlocks : nat)
    (plan plan' : list BlockType) (random random' : R) :
  fillPlan fuel citySize remainingBlocks plan random = Some (plan', random') →
  length plan' = length plan ∧
  ∀ i b, plan !! i = Some b → b ≠ Empty → plan' !! i = Some b.
Proof.
  revert plan random. induction remainingBlocks as [|n IH]; intros plan random; simpl.
  - by intros [= <- <-].
  - destruct (next random) as [v random1].
    destruct (placeBlock fuel citySize (planBlockType v) plan random1)
      as [[plan1 random2]|] eqn:Hp; simpl; [|done].
    intros Hf. apply placeBlock_keeps in Hp as [Hl1 Hk1].
    apply IH in Hf as [Hl2 Hk2]. split; [congruence|]. auto.
Qed.

Lemma planCity_keeps (fuel : nat) (cityDim : Z) (reservedBlocks : list nat)
    (random random' : R) (plan' : list BlockType) :
  planCity fuel cityDim reservedBlocks random = Some (plan', random') →
  length plan' =
    length (foldl setReserved (replicate (Z.to_nat (cityDim * cityDim)) Empty)
              reservedBlocks) ∧
  ∀ i b,
    foldl setReserved (replicate (Z.to_nat (cityDim * cityDim)) Empty)
      reservedBlocks !! i = Some b →
    b ≠ Empty → plan' !! i = Some b.
Proof.
  unfold planCity.
  generalize (foldl setReserved (replicate (Z.to_nat (cityDim * cityDim)) Empty)
                reservedBlocks) as p0.
  intros p0.
  repeat
    match goal with
    | |- context [placeBlock fuel ?cs ?b ?p ?rnd] =>
        let Hp := fresh "Hp" in
        destruct (placeBlock fuel cs b p rnd) as [[? ?]|] eqn:Hp; [|done];
        cbn [mbind option_bind];
        apply placeBlock_keeps in Hp as [? ?]
    end.
  intros Hf. apply fillPlan_keeps in Hf as [Hl Hk].
  split; [congruence|]. auto 10.
Qed.

(** *** The block loop *)

(** What the claims say of one loaded template, against the final plan. *)
Definition loaded_ok (cityDim : Z) (plan : list BlockType) (e : LoadedBlock) : Prop :=
  0 ≤ lb_xDim e + lb_yDim e * cityDim ∧
  plan !! Z.to_nat (lb_xDim e + lb_yDim e * cityDim) = Some (lb_block e) ∧
  lb_block e ≠ Reserved ∧
  getCityBlockVariations utils (BlockType_to_int (lb_block e) - 2)
    = Some (lb_variationCount e) ∧
  lb_variationCount e ≠ 0 ∧
  lb_variation e = cityBlockVariation (lb_variationDraw e) (lb_variationCount e) ∧
  lb_mifName e ∈ dom cityBlockMifs.

Lemma buildBlock_loaded (cityDim gridDepth : Z) (startPosition : Int2)
    (block : BlockType) (st st' : CityBuild R) :
  buildBlock cityDim gridDepth startPosition block st = Some st' →
  cb_xDim st' + cb_yDim st' * cityDim = cb_xDim st + cb_yDim st * cityDim + 1 ∧
  (block = Reserved →
     cb_loaded st' = cb_loaded st ∧ cb_random st' = cb_random st ∧
     cb_flor st' = cb_flor st ∧ cb_map1 st' = cb_map1 st ∧ cb_map2 st' = cb_map2 st) ∧
  (block ≠ Reserved →
     ∃ e, cb_loaded st' = cb_loaded st ++ [e] ∧
       lb_xDim e = cb_xDim st ∧ lb_yDim e = cb_yDim st ∧ lb_block e = block ∧
       getCityBlockVariations utils (BlockType_to_int block - 2)
         = Some (lb_variationCount e) ∧
       lb_variationCount e ≠ 0 ∧
       lb_variation e = cityBlockVariation (lb_variationDraw e) (lb_variationCount e) ∧
       lb_mifName e ∈ dom cityBlockMifs).
Proof.
  unfold buildBlock. intros Hrun.
  assert (Hdim : ∀ st1 : CityBuild R,
    Some (if cb_xDim st1 + 1 =? cityDim
          then mkCityBuild (cb_random st1) (cb_flor st1) (cb_map1 st1) (cb_map2 st1)
                 0 (cb_yDim st1 + 1) (cb_loaded st1)
          else mkCityBuild (cb_random st1) (cb_flor st1) (cb_map1 st1) (cb_map2 st1)
                 (cb_xDim st1 + 1) (cb_yDim st1) (cb_loaded st1)) = Some st' →
    cb_xDim st' + cb_yDim st' * cityDim = cb_xDim st1 + cb_yDim st1 * cityDim + 1 ∧
    cb_loaded st' = cb_loaded st1 ∧ cb_random st' = cb_random st1 ∧
    cb_flor st' = cb_flor st1 ∧ cb_map1 st' = cb_map1 st1 ∧ cb_map2 st' = cb_map2 st1).
  { intros st1 [= <-]. destruct (Z.eqb_spec (cb_xDim st1 + 1) cityDim); simpl;
      (split; [lia|done]). }
  destruct (decide (block = Reserved)) as [->|Hne]; simpl in Hrun.
  - apply Hdim in Hrun as (? & ? & ? & ? & ? & ?). by repeat split.
  - destruct (getCityBlockCode utils _) as [blockCode|]; simpl in Hrun; [|done].
    destruct (next (cb_random st)) as [r1 random1].
    destruct (getCityBlockRotationCount utils =? 0); [done|].
    destruct (getCityBlockRotation utils _) as [rotation|]; simpl in Hrun; [|done].
    destruct (getCityBlockVariations utils _) as [variationCount|] eqn:Hvc;
      simpl in Hrun; [|done].
    destruct (next random1) as [r2 random2].
    destruct (Z.eqb_spec variationCount 0) as [|Hvc0]; [done|].
    destruct (cityBlockMifs !! _) as [blockMif|] eqn:Hmif; simpl in Hrun; [|done].
    destruct (head _) as [blockLevel|]; simpl in Hrun; [|done].
    destruct (copyBlock _ _ _ _ _ _) as [[[dstFlor dstMap1] dstMap2]|];
      cbn [mbind option_bind] in Hrun; [|done].
    apply Hdim in Hrun as (Hpos & Hl & _). simpl in *.
    split; [done|]. split; [done|]. intros _.
    eexists. split; [exact Hl|]. simpl. repeat (split; [done|]).
    apply elem_of_dom. by eexists.
Qed.

Lemma buildCity_loaded (cityDim gridDepth : Z) (startPosition : Int2)
    (full : list BlockType) :
  ∀ (rest done_ : list BlockType) (st st' : CityBuild R),
    full = done_ ++ rest →
    cb_xDim st + cb_yDim st * cityDim = Z.of_nat (length done_) →
    Forall (loaded_ok cityDim full) (cb_loaded st) →
    buildCity cityDim gridDepth startPosition rest st = Some st' →
    Forall (loaded_ok cityDim full) (cb_loaded st').
Proof.
  induction rest as [|block rest IH]; intros done_ st st' Hfull Hpos Hok; simpl.
  - by intros [= <-].
  - destruct (buildBlock cityDim gridDepth startPosition block st) as [st1|] eqn:Hb;
      simpl; [|done].
    apply buildBlock_loaded in Hb as (Hpos1 & Hres & Hnres).
    apply (IH (done_ ++ [block])).
    + by rewrite <- app_assoc.
    + rewrite length_app. simpl. lia.
    + destruct (decide (block = Reserved)) as [Heq|Hne].
      * destruct (Hres Heq) as [-> _]. done.
      * destruct (Hnres Hne) as (e & -> & Hx & Hy & Hbl & Hvc & Hvc0 & Hvar & Hdom).
        apply Forall_app. split; [done|]. apply Forall_singleton.
        unfold loaded_ok. rewrite Hx, Hy, Hbl, Hpos.
        split; [lia|]. rewrite Nat2Z.id.
        split; [rewrite Hfull; by apply list_lookup_middle|]. done.
Qed.

Lemma generateCity_loaded (fuel : nat) (citySeed cityDim gridDepth : Z)
    (reservedBlocks : list nat) (startPosition : Int2) (random : R)
    (dstFlor dstMap1 dstMap2 : list Z) (plan : list BlockType) (st : CityBuild R) :
  generateCity fuel citySeed cityDim gridDepth reservedBlocks startPosition random
    dstFlor dstMap1 dstMap2 = Some (plan, st) →
  Forall (loaded_ok cityDim plan) (cb_loaded st) ∧
  ∃ random1, planCity fuel cityDim reservedBlocks random = Some (plan, random1).
Proof.
  unfold generateCity.
  destruct (planCity fuel cityDim reservedBlocks random) as [[plan1 random1]|] eqn:Hp;
    simpl; [|done].
  destruct (buildCity _ _ _ _ _) as [st1|] eqn:Hb; simpl; [|done].
  intros [= <- <-]. split; [|by eexists].
  eapply (buildCity_loaded cityDim gridDepth startPosition plan1 plan1 []); [done| | |done].
  - simpl. lia.
  - simpl. apply Forall_nil_2.
Qed.

Lemma cityBlockVariation_bounds (draw variationCount : Z) :
  1 ≤ cityBlockVariation draw variationCount ∧
  (0 < variationCount →
     cityBlockVariation draw variationCount ≤ Z.max (variationCount - 1) 1).
Proof.
  unfold cityBlockVariation. split; [lia|]. intros Hpos.
  destruct (Z.le_gt_cases 0 draw) as [Hd|Hd].
  - pose proof (Z.rem_bound_pos draw variationCount Hd Hpos). lia.
  - assert (Z.rem draw variationCount ≤ 0); [|lia].
    apply Z.rem_nonpos; lia.
Qed.

Lemma cityBlockVariation_residue (draw variationCount : Z) :
  (Z.rem draw variationCount ≤ 1 → cityBlockVariation draw variationCount = 1) ∧
  (2 ≤ Z.rem draw variationCount →
     cityBlockVariation draw variationCount = Z.rem draw variationCount).
Proof. unfold cityBlockVariation. lia. Qed.

(** C5 (as amended). Every block template loaded by [generateCity] belongs
    to a non-reserved plan cell and has variation index
    [max(draw % variationCount, 1)] for that category's variation count: at
    least 1, at most [max(variationCount - 1, 1)]. The draw is not spread
    evenly: remainders 0 and 1 both select variation 1 and every larger
    remainder selects itself; so a count of 2 or more is itself never
    selected, while with a count of 1 the variation is always 1, the
    count. *)
Theorem generateCity_variation (fuel : nat) (citySeed cityDim gridDepth : Z)
    (reservedBlocks : list nat) (startPosition : Int2) (random : R)
    (dstFlor dstMap1 dstMap2 : list Z) (plan : list BlockType) (st : CityBuild R) :
  generateCity fuel citySeed cityDim gridDepth reservedBlocks startPosition random
    dstFlor dstMap1 dstMap2 = Some (plan, st) →
  ∀ e, e ∈ cb_loaded st →
    lb_block e ≠ Reserved ∧
    getCityBlockVariations utils (BlockType_to_int (lb_block e) - 2)
      = Some (lb_variationCount e) ∧
    lb_variation e = Z.max (Z.rem (lb_variationDraw e) (lb_variationCount e)) 1 ∧
    1 ≤ lb_variation e ∧
    (0 < lb_variationCount e → lb_variation e ≤ Z.max (lb_variationCount e - 1) 1) ∧
    (Z.rem (lb_variationDraw e) (lb_variationCount e) ≤ 1 → lb_variation e = 1) ∧
    (2 ≤ Z.rem (lb_variationDraw e) (lb_variationCount e) →
       lb_variation e = Z.rem (lb_variationDraw e) (lb_variationCount e)) ∧
    (2 ≤ lb_variationCount e → lb_variation e < lb_variationCount e) ∧
    (lb_variationCount e = 1 → lb_variation e = 1).
Proof.
  intros Hrun e He. apply generateCity_loaded in Hrun as [Hall _].
  rewrite Forall_forall in Hall.
  destruct (Hall e He) as (_ & _ & Hne & Hvc & _ & Hvar & _).
  pose proof (cityBlockVariation_bounds (lb_variationDraw e) (lb_variationCount e))
    as [Hlo Hhi].
  pose proof (cityBlockVariation_residue (lb_variationDraw e) (lb_variationCount e))
    as [Hr1 Hr2].
  rewrite <- Hvar in Hlo, Hhi, Hr1, Hr2.
  repeat (split; [done|]). split; [intros Hc; lia|intros Hc; lia].
Qed.

Lemma planCity_filter (fuel : nat) (cityDim : Z) (reservedBlocks : list nat) (random : R) :
  planCity fuel cityDim reservedBlocks random =
  planCity fuel cityDim
    (filter (fun b => (b < Z.to_nat (cityDim * cityDim))%nat) reservedBlocks) random.
Proof.
  unfold planCity.
  rewrite (foldl_setReserved_filter reservedBlocks). by rewrite length_replicate.
Qed.

(** C8. In a completed run of [generateCity], the plan has
    [cityDim * cityDim] cells; every entry of the reserved list that is
    inside the plan has its cell marked reserved, and it stays so; an entry
    outside the plan changes nothing (the run is the same as with those
    entries removed, and [setReserved] returns the plan it was given); and
    no block template is loaded for a reserved cell. *)
Theorem generateCity_reserved (fuel : nat) (citySeed cityDim gridDepth : Z)
    (reservedBlocks : list nat) (startPosition : Int2) (random : R)
    (dstFlor dstMap1 dstMap2 : list Z) (plan : list BlockType) (st : CityBuild R) :
  generateCity fuel citySeed cityDim gridDepth reservedBlocks startPosition random
    dstFlor dstMap1 dstMap2 = Some (plan, st) →
  length plan = Z.to_nat (cityDim * cityDim) ∧
  (∀ block, block ∈ reservedBlocks → (block < Z.to_nat (cityDim * cityDim))%nat →
     plan !! block = Some Reserved) ∧
  (∀ (plan0 : list BlockType) block,
     (length plan0 ≤ block)%nat → setReserved plan0 block = plan0) ∧
  generateCity fuel citySeed cityDim gridDepth
    (filter (fun b => (b < Z.to_nat (cityDim * cityDim))%nat) reservedBlocks)
    startPosition random dstFlor dstMap1 dstMap2 = Some (plan, st) ∧
  (∀ e, e ∈ cb_loaded st →
     lb_block e ≠ Reserved ∧
     plan !! Z.to_nat (lb_xDim e + lb_yDim e * cityDim) = Some (lb_block e) ∧
     ∀ block, block ∈ reservedBlocks →
       Z.of_nat block ≠ lb_xDim e + lb_yDim e * cityDim).
Proof.
  intros Hrun.
  destruct (generateCity_loaded _ _ _ _ _ _ _ _ _ _ _ _ Hrun) as [Hall [random1 Hplan]].
  destruct (planCity_keeps _ _ _ _ _ _ Hplan) as [Hlen Hkeep].
  rewrite foldl_setReserved_length, length_replicate in Hlen.
  assert (Hmarked : ∀ block, block ∈ reservedBlocks →
            (block < Z.to_nat (cityDim * cityDim))%nat → plan !! block = Some Reserved).
  { intros block Hin Hlt. apply Hkeep; [|done].
    apply foldl_setReserved_marks; [done|]. by rewrite length_replicate. }
  split; [done|]. split; [done|]. split; [apply setReserved_out_of_range|]. split.
  - unfold generateCity in *. by rewrite <- planCity_filter.
  - intros e He. rewrite Forall_forall in Hall.
    destruct (Hall e He) as (Hpos & Hcell & Hne & _).
    split; [done|]. split; [done|]. intros block Hin Heq.
    rewrite <- Heq, Nat2Z.id in Hcell.
    assert (block < length plan)%nat as Hlt by by eapply lookup_lt_Some.
    rewrite Hmarked in Hcell; [|done|lia]. congruence.
Qed.

End City.

(** The claim that the variation is uniform, in its most favourable
    reading: over one full period of remainders, every variation that can
    occur is selected by equally many draws. *)
Definition draws_selecting (variationCount v : Z) : nat :=
  length (filter (fun draw => cityBlockVariation draw variationCount = v)
            (seqZ 0 variationCount)).

Definition variation_uniform_as_specified (variationCount : Z) : Prop :=
  ∀ v1 v2, 1 ≤ v1 < variationCount → 1 ≤ v2 < variationCount →
    draws_selecting variationCount v1 = draws_selecting variationCount v2.

(** C5 (as specified) fails: with three variations, draws 0 and 1 both
    select variation 1 and only draw 2 selects variation 2. *)
Lemma variation_uniform_as_specified_fails : ¬ variation_uniform_as_specified 3.
Proof.
  intros Huniform. specialize (Huniform 1 2). vm_compute in Huniform.
  assert (2 = 1)%nat; [|done]. apply Huniform; by split.
Qed.

(** *** What a run of the generator depends on *)

(** The generator object after [n] calls of [next]. *)
Fixpoint advance {R : Type} `{ArenaRandom R} (n : nat) (random : R) : R :=
  match n with
  | O => random
  | S n' => advance n' (next random).2
  end.

(** Two generator objects, possibly of two implementations, that return the
    same value at every call from here on. *)
Definition same_draws {R1 R2 : Type} `{ArenaRandom R1} `{ArenaRandom R2}
    (random1 : R1) (random2 : R2) : Prop :=
  ∀ n, (next (advance n random1)).1 = (next (advance n random2)).1.

Lemma same_draws_refl {R : Type} `{ArenaRandom R} (random : R) :
  same_draws random random.
Proof. by intros n. Qed.

(** Two calls of [generateCity] one after the other with the same seed
    argument, dimensions, reserved list, start position and templates, each
    on its own copy of the destination layers. The generator is the caller's
    object, passed by reference: the second call starts from the state the
    first call left it in. *)
Definition generateCityTwice {R : Type} `{ArenaRandom R} (utils : MIFUtils)
    (cityBlockMifs : gmap string MIFFile) (fuel : nat) (citySeed cityDim gridDepth : Z)
    (reservedBlocks : list nat) (startPosition : Int2) (random : R)
    (dstFlor dstMap1 dstMap2 : list Z)
  : option ((list BlockType * CityBuild R) * (list BlockType * CityBuild R)) :=
  r1 ← generateCity utils cityBlockMifs fuel citySeed cityDim gridDepth reservedBlocks
         startPosition random dstFlor dstMap1 dstMap2;
  r2 ← generateCity utils cityBlockMifs fuel citySeed cityDim gridDepth reservedBlocks
         startPosition (cb_random r1.2) dstFlor dstMap1 dstMap2;
  Some (r1, r2).


Section CityDraws.
Context {R1 R2 : Type} {H1 : ArenaRandom R1} {H2 : ArenaRandom R2}.
Variable utils : MIFUtils.
Variable cityBlockMifs : gmap string MIFFile.














End CityDraws.

(** *** A sample city *)

Definition sample_utils : MIFUtils :=
  {| getCityBlockCode := at_ ["EQ"; "MG"; "NB"; "TP"; "TV"; "TS"; "BS"]%string;
     getCityBlockRotation := at_ ["A"; "B"; "C"; "D"]%string;
     getCityBlockRotationCount := 4;
     getCityBlockVariations := at_ [13; 11; 10; 12; 15; 11; 20];
     makeCityBlockMifName := fun code variation rotation =>
       (code +:+ "BD" +:+ pretty variation +:+ rotation +:+ ".MIF")%string |}.

(** A 2 x 2 template whose voxels tell the layers and the variation apart. *)
Definition sample_block (variation : Z) : MIFFile :=
  mkMIFFile 2 2
    [mkMIFLevel (replicate 4 (0x0100 + variation)) (replicate 4 (0x0200 + variation))
       (replicate 4 (0x0300 + variation))].

Definition sample_cityBlockMifs : gmap string MIFFile :=
  list_to_map
    (code ← ["EQ"; "MG"; "NB"; "TP"; "TV"; "TS"; "BS"]%string;
     variation ← seqZ 1 20;
     rotation ← ["A"; "B"; "C"; "D"]%string;
     [(makeCityBlockMifName sample_utils code variation rotation,
       sample_block variation)]).

(** A 3 x 3 city over 50 x 50 layers; block 4 is reserved, and 200 is an
    index outside the plan. *)
Definition sample_city (fuel : nat) : option (list BlockType * CityBuild Z) :=
  generateCityFromSeed (H := LcgRandom) sample_utils sample_cityBlockMifs fuel
    0x12345678 3 50 [4; 200]%nat (0, 0)
    (replicate 2500 0) (replicate 2500 0) (replicate 2500 0).

Example sample_city_plan :
  fst <$> sample_city 100 =
  Some [Temple; Equipment; NobleHouse; MagesGuild; Reserved; Houses; Spacer;
        NobleHouse; Tavern].
Proof. vm_compute. reflexivity. Qed.

Example sample_city_loaded :
  (λ r, map (λ e, (lb_xDim e, lb_yDim e, lb_variationCount e, lb_variationDraw e,
                   lb_variation e, lb_mifName e)) (cb_loaded r.2)) <$> sample_city 100 =
  Some [(0, 0, 12, 13240, 4, "TPBD4D.MIF"); (1, 0, 13, 23098, 10, "EQBD10C.MIF");
        (2, 0, 10, 51065, 5, "NBBD5C.MIF"); (0, 1, 11, 50203, 10, "MGBD10C.MIF");
        (2, 1, 20, 20180, 1, "BSBD1D.MIF"); (0, 2, 11, 34547, 7, "TSBD7A.MIF");
        (1, 2, 10, 31183, 3, "NBBD3A.MIF"); (2, 2, 15, 3604, 4, "TVBD4C.MIF")]%string.
Proof. vm_compute. reflexivity. Qed.




(** Two calls in a row on the sample city: the two plans. *)
Example sample_city_twice_plans :
  (λ r, (r.1.1, r.2.1)) <$>
    generateCityTwice (H := LcgRandom) sample_utils sample_cityBlockMifs 100
      0x12345678 3 50 [4; 200]%nat (0, 0) (@srand Z LcgRandom 0x12345678)
      (replicate 2500 0) (replicate 2500 0) (replicate 2500 0) =
  Some ([Temple; Equipment; NobleHouse; MagesGuild; Reserved; Houses; Spacer;
         NobleHouse; Tavern],
        [Equipment; MagesGuild; Tavern; Temple; Reserved; Temple; Spacer;
         Houses; NobleHouse]).
Proof. vm_compute. reflexivity. Qed.


Lemma generateCity_variation_witness :
  ∃ plan st, sample_city 100 = Some (plan, st) ∧
    ∀ e, e ∈ cb_loaded st → 1 ≤ lb_variation e.
Proof.
  destruct (sample_city 100) as [[plan st]|] eqn:H1; [|vm_compute in H1; discriminate].
  exists plan, st. split; [done|]. intros e He.
  apply (generateCity_variation (H := LcgRandom) sample_utils sample_cityBlockMifs
           100 0x12345678 3 50 [4; 200]%nat (0, 0) (@srand Z LcgRandom 0x12345678)
           (replicate 2500 0) (replicate 2500 0) (replicate 2500 0) plan st H1 e He).
Defined.

Lemma generateCity_reserved_witness :
  ∃ plan st, sample_city 100 = Some (plan, st) ∧
    plan !! 4%nat = Some Reserved ∧
    ∀ e, e ∈ cb_loaded st → lb_block e ≠ Reserved.
Proof.
  destruct (sample_city 100) as [[plan st]|] eqn:H1; [|vm_compute in H1; discriminate].
  exists plan, st. split; [done|].
  destruct (generateCity_reserved (H := LcgRandom) sample_utils sample_cityBlockMifs
           100 0x12345678 3 50 [4; 200]%nat (0, 0) (@srand Z LcgRandom 0x12345678)
           (replicate 2500 0) (replicate 2500 0) (replicate 2500 0) plan st H1)
    as (_ & Hmarked & _ & _ & Hloaded).
  split.
  - apply (Hmarked 4%nat); [by left|]. change (Z.to_nat (3 * 3)) with 9%nat. lia.
  - intros e He. by destruct (Hloaded e He) as [Hne _].
Defined.

(** ** Building names *)

Module MenuType.
(** [VoxelDefinition::WallData::MenuType], as far as the name generators tell
    its values apart. *)
Inductive t := Tavern | Equipment | Temple | Other.

Global Instance eq_dec : EqDecision t.
Proof. solve_decision. Defined.
End MenuType.

(** [ExeData::cityGen]: the name tables. *)
Record CityGenData := {
  tavernPrefixes : list string;
  tavernSuffixes : list string;
  tavernMarineSuffixes : list string;
  equipmentPrefixes : list string;
  equipmentSuffixes : list string;
  templePrefixes : list string;
  temple1Suffixes : list string;
  temple2Suffixes : list string;
  temple3Suffixes : list string
}.

(** [LocationDefinition::CityDefinition], the fields read here. *)
Record CityDefinition := {
  citySeed : Z;
  coastal : bool;
  typeDisplayName : string;
  hasMainQuestTempleOverride : bool;
  override_modelIndex : Z;
  override_suffixIndex : Z;
  override_menuNamesIndex : Z
}.

(** [std::string::replace(index, len, str)] *)
Definition string_replace (s : string) (index len : nat) (new : string) : string :=
  (substring 0 index s +:+ new +:+
   substring (index + len) (String.length s - (index + len)) s)%string.

(** [String::split(name).front()]: the text before the first space. *)
Fixpoint firstToken (s : string) : string :=
  match s with
  | EmptyString => EmptyString
  | String c s' => if Ascii.eqb c " "%char then EmptyString else String c (firstToken s')
  end.

(** [std::find(seen.begin(), seen.end(), hash) != seen.end()] *)
Definition hashInSeen (seen : list Z) (hash : Z) : bool :=
  bool_decide (hash ∈ seen).

(** The width and depth of a wilderness chunk ([RMDFile::WIDTH],
    [RMDFile::DEPTH]). *)
Definition RMD_WIDTH : Z := 64.
Definition RMD_DEPTH : Z := 64.

Record NamesState (R : Type) := mkNamesState {
  ns_random : R;
  ns_citySeed : Z;
  ns_menuNames : list (Int2 * string)
}.

Arguments mkNamesState {R}.
Arguments ns_random {R}.
Arguments ns_citySeed {R}.
Arguments ns_menuNames {R}.

Section BuildingNames.
Context {R : Type} `{ArenaRandom R} {D : Type}.
Variable cityGen : CityGenData.
Variable getMenuType : Z → bool → MenuType.t.
Variable getLocalCityPoint : Z → Int2.
Variable generateNpcName : Z → bool → R → string.
Variable raceID : Z.
Variable level : LevelData D.

(** Whether the voxel at (x, 1, z) is a *MENU block of the target type.
    [None] is an index without a definition. *)
Definition matchesTargetType (isCity : bool) (menuType : MenuType.t) (x z : Z)
  : option bool :=
  let voxelID := getVoxel level x 1 z in
  voxelDef ← getVoxelData level voxelID;
  Some match voxelDef with
       | Wall _ _ _ (Some menuID) Menu =>
           bool_decide (getMenuType menuID isCity = menuType)
       | _ => false
       end.

Definition createTavernName (cityDef : CityDefinition) (m n : Z) : option string :=
  let tavernSuffixes :=
    if coastal cityDef then tavernMarineSuffixes cityGen else tavernSuffixes cityGen in
  prefix ← at_ (tavernPrefixes cityGen) m;
  suffix ← at_ tavernSuffixes n;
  Some (prefix +:+ " " +:+ suffix)%string.

Definition createEquipmentName (cityDef : CityDefinition) (m n x z : Z) : option string :=
  prefix ← at_ (equipmentPrefixes cityGen) m;
  suffix ← at_ (equipmentSuffixes cityGen) n;
  let str := (prefix +:+ " " +:+ suffix)%string in
  let str :=
    match index 0 "%ct" str with
    | Some i => string_replace str i 3 (typeDisplayName cityDef)
    | None => str
    end in
  let str :=
    match index 0 "%ef" str with
    | Some i =>
        let nameRandom := srand (Z.shiftl x 16 + z) in
        let name := generateNpcName raceID true nameRandom in
        string_replace str i 3 (firstToken name)
    | None => str
    end in
  let str :=
    match index 0 "%n" str with
    | Some i =>
        let nameRandom := srand (Z.shiftl z 16 + x) in
        string_replace str i 2 (generateNpcName raceID true nameRandom)
    | None => str
    end in
  Some str.

Definition createTempleName (model n : Z) : option string :=
  templeSuffix ←
    (if model =? 0 then at_ (temple1Suffixes cityGen) n
     else if model =? 1 then at_ (temple2Suffixes cityGen) n
     else at_ (temple3Suffixes cityGen) n);
  prefix ← at_ (templePrefixes cityGen) model;
  Some (prefix +:+ templeSuffix)%string.

(** One pass of a do-while body: the two draws of a category and the hash
    made of them. The temple's second modulus comes from [ModelVars]. *)
Definition drawPair (menuType : MenuType.t) (random : R) : option (Z * Z * Z * R) :=
  match menuType with
  | MenuType.Tavern =>
      let '(r1, random) := next random in
      let m := Z.rem r1 23 in
      let '(r2, random) := next random in
      let n := Z.rem r2 23 in
      Some (m, n, Z.shiftl m 8 + n, random)
  | MenuType.Equipment =>
      let '(r1, random) := next random in
      let m := Z.rem r1 20 in
      let '(r2, random) := next random in
      let n := Z.rem r2 10 in
      Some (m, n, Z.shiftl m 8 + n, random)
  | _ =>
      let '(r1, random) := next random in
      let model := Z.rem r1 3 in
      vars ← at_ [5; 9; 10] model;
      let '(r2, random) := next random in
      let n := Z.rem r2 vars in
      Some (model, n, Z.shiftl model 8 + n, random)
  end.

(** [do { ... } while (hashInSeen(hash))]; [fuel] bounds the passes. *)
Fixpoint drawUnseen (fuel : nat) (menuType : MenuType.t) (seen : list Z) (random : R)
  : option (Z * Z * Z * R) :=
  match fuel with
  | O => None
  | S fuel' =>
      '(m, n, hash, random) ← drawPair menuType random;
      if hashInSeen seen hash then drawUnseen fuel' menuType seen random
      else Some (m, n, hash, random)
  end.

Definition createName (cityDef : CityDefinition) (menuType : MenuType.t)
    (m n x z : Z) : option string :=
  match menuType with
  | MenuType.Tavern => createTavernName cityDef m n
  | MenuType.Equipment => createEquipmentName cityDef m n x z
  | _ => createTempleName m n
  end.

(** The [tryGenerateBlockName] lambda of [generateBuildingNames], on the
    state and the [seen] list of the enclosing [generateNames]. *)
Definition tryGenerateBlockName (fuel : nat) (cityDef : CityDefinition) (isCity : bool)
    (menuType : MenuType.t) (x z : Z) (s : NamesState R * list Z)
  : option (NamesState R * list Z) :=
  let '(st, seen) := s in
  matches ← matchesTargetType isCity menuType x z;
  if matches : bool then
    '(m, n, hash, random) ← drawUnseen fuel menuType seen (ns_random st);
    name ← createName cityDef menuType m n x z;
    Some (mkNamesState random (ns_citySeed st) (ns_menuNames st ++ [((x, z), name)]),
          seen ++ [hash])
  else Some s.

(** The scan of [generateNames]: both axes descending. *)
Definition scanNames (fuel : nat) (cityDef : CityDefinition) (isCity : bool)
    (gridWidth gridDepth : Z) (menuType : MenuType.t) (st : NamesState R)
  : option (NamesState R * list Z) :=
  forZ_down gridWidth (fun x =>
    forZ_down gridDepth (fun z =>
      tryGenerateBlockName fuel cityDef isCity menuType x z)) (st, []).

(** The [generateNames] lambda: reseed for equipment and temple, scan, then
    the main-quest temple override. *)
Definition generateNames (fuel : nat) (cityDef : CityDefinition) (isCity : bool)
    (gridWidth gridDepth : Z) (localCityPoint : Int2) (menuType : MenuType.t)
    (st : NamesState R) : option (NamesState R) :=
  let st :=
    if bool_decide (menuType = MenuType.Equipment ∨ menuType = MenuType.Temple) then
      let citySeed := Z.shiftl localCityPoint.1 16 + localCityPoint.2 in
      mkNamesState (srand citySeed) citySeed (ns_menuNames st)
    else st in
  '(st, _) ← scanNames fuel cityDef isCity gridWidth gridDepth menuType st;
  if bool_decide (menuType = MenuType.Temple) && hasMainQuestTempleOverride cityDef then
    let menuNamesIndex := override_menuNamesIndex cityDef in
    entry ← at_ (ns_menuNames st) menuNamesIndex;
    name ← createTempleName (override_modelIndex cityDef) (override_suffixIndex cityDef);
    Some (mkNamesState (ns_random st) (ns_citySeed st)
            (<[Z.to_nat menuNamesIndex := (entry.1, name)]> (ns_menuNames st)))
  else Some st.

Definition generateBuildingNames (fuel : nat) (cityDef : CityDefinition) (random : R)
    (isCity : bool) (gridWidth gridDepth : Z) (menuNames : list (Int2 * string))
  : option (NamesState R) :=
  let localCityPoint := getLocalCityPoint (citySeed cityDef) in
  let st := mkNamesState random (citySeed cityDef) menuNames in
  st ← generateNames fuel cityDef isCity gridWidth gridDepth localCityPoint
         MenuType.Tavern st;
  st ← generateNames fuel cityDef isCity gridWidth gridDepth localCityPoint
         MenuType.Equipment st;
  generateNames fuel cityDef isCity gridWidth gridDepth localCityPoint
    MenuType.Temple st.

(** *** Wilderness *)

Definition createWildTavernName (m n : Z) : option string :=
  prefix ← at_ (tavernPrefixes cityGen) m;
  suffix ← at_ (tavernSuffixes cityGen) n;
  Some (prefix +:+ " " +:+ suffix)%string.

(** The name a wilderness *MENU block gets from a generator. *)
Definition createWildName (menuType : MenuType.t) (random : R) : option string :=
  match menuType with
  | MenuType.Tavern =>
      let '(r1, random) := next random in
      let m := Z.rem r1 23 in
      let '(r2, random) := next random in
      let n := Z.rem r2 23 in
      createWildTavernName m n
  | _ =>
      let '(r1, random) := next random in
      let model := Z.rem r1 3 in
      vars ← at_ [5; 9; 10] model;
      let '(r2, random) := next random in
      let n := Z.rem r2 vars in
      createTempleName model n
  end.

(** The [tryGenerateBlockName] lambda of [generateWildChunkBuildingNames]:
    its generator is constructed from the chunk seed on every call. *)
Definition tryGenerateWildBlockName (wildX wildY wildChunkSeed : Z)
    (menuType : MenuType.t) (x z : Z) (menuNames : list (Int2 * string))
  : option (list (Int2 * string)) :=
  let random := srand wildChunkSeed in
  let relativeOrigin : Int2 :=
    (((RMD_DEPTH - 1) - wildX) * RMD_DEPTH, ((RMD_WIDTH - 1) - wildY) * RMD_WIDTH) in
  let dstPoint : Int2 :=
    (relativeOrigin.2 + (RMD_WIDTH - 1 - x), relativeOrigin.1 + (RMD_DEPTH - 1 - z)) in
  matches ← matchesTargetType false menuType dstPoint.1 dstPoint.2;
  if matches : bool then
    name ← createWildName menuType random;
    Some (menuNames ++ [(dstPoint, name)])
  else Some menuNames.

(** The [generateNames] lambda of [generateWildChunkBuildingNames]. *)
Definition generateWildNames (wildX wildY : Z) (menuType : MenuType.t)
    (menuNames : list (Int2 * string)) : option (list (Int2 * string)) :=
  let wildChunkSeed := Z.shiftl wildY 16 + wildX in
  forZ 0 RMD_DEPTH (fun x =>
    forZ 0 RMD_WIDTH (fun z =>
      tryGenerateWildBlockName wildX wildY wildChunkSeed menuType x z)) menuNames.

Definition generateWildChunkBuildingNames (menuNames : list (Int2 * string))
  : option (list (Int2 * string)) :=
  let wildChunksPerSide := 64 in
  forZ 0 wildChunksPerSide (fun y =>
    forZ 0 wildChunksPerSide (fun x menuNames =>
      menuNames ← generateWildNames x y MenuType.Tavern menuNames;
      generateWildNames x y MenuType.Temple menuNames)) menuNames.

Lemma for_loop_inv_simple {St : Type} (P : St → Prop) (body : Z → St → option St) :
  ∀ (n : nat) (i : Z) (s s' : St),
    for_loop n i body s = Some s' →
    P s →
    (∀ j t t', P t → body j t = Some t' → P t') →
    P s'.
Proof.
  intros n i s s' Hrun Hs Hstep.
  apply (for_loop_inv (fun _ t => P t) body n i s s' Hrun Hs).
  intros j t t' _. apply Hstep.
Qed.

(** *** De-duplication in the city pass *)







(** *** The retry loop, draw by draw *)





(** *** Fuel: more passes allowed never changes a result *)







(** *** One name per wilderness chunk and menu type *)

Definition wild_names_inv (wildX wildY : Z) (menuType : MenuType.t)
    (base menuNames : list (Int2 * string)) : Prop :=
  ∃ new, menuNames = base ++ new ∧
    Forall (fun e =>
      createWildName menuType (srand (Z.shiftl wildY 16 + wildX)) = Some e.2 ∧
      matchesTargetType false menuType e.1.1 e.1.2 = Some true) new.

Lemma tryGenerateWildBlockName_inv (wildX wildY : Z) (menuType : MenuType.t) (x z : Z)
    (base menuNames menuNames' : list (Int2 * string)) :
  wild_names_inv wildX wildY menuType base menuNames →
  tryGenerateWildBlockName wildX wildY (Z.shiftl wildY 16 + wildX) menuType x z menuNames
    = Some menuNames' →
  wild_names_inv wildX wildY menuType base menuNames'.
Proof.
  intros (new & -> & Hall). unfold tryGenerateWildBlockName. cbv zeta.
  destruct (matchesTargetType false menuType _ _) as [[|]|] eqn:Hm; simpl; [| |done].
  - destruct (createWildName menuType _) as [name|] eqn:Hn; simpl; [|done].
    intros [= <-]. eexists. split; [by rewrite <- app_assoc|].
    rewrite Hn. apply Forall_app. split; [done|]. apply Forall_singleton. by split.
  - intros [= <-]. by exists new.
Qed.

(** C9. In the wilderness pass the generator is constructed from the chunk
    seed (wildY << 16) + wildX for every voxel examined, so all entries one
    call of [generateNames] adds for a chunk and a menu type carry the same
    name: the one composed from the first draws of that seed. *)
Theorem generateWildNames_same_name (wildX wildY : Z) (menuType : MenuType.t)
    (menuNames menuNames' : list (Int2 * string)) :
  generateWildNames wildX wildY menuType menuNames = Some menuNames' →
  ∃ new, menuNames' = menuNames ++ new ∧
    (∀ e, e ∈ new →
       createWildName menuType (srand (Z.shiftl wildY 16 + wildX)) = Some e.2 ∧
       matchesTargetType false menuType e.1.1 e.1.2 = Some true) ∧
    (∀ e1 e2, e1 ∈ new → e2 ∈ new → e1.2 = e2.2).
Proof.
  intros Hrun.
  assert (Hinv : wild_names_inv wildX wildY menuType menuNames menuNames').
  { unfold generateWildNames, forZ in Hrun. cbv zeta in Hrun.
    eapply (for_loop_inv_simple (wild_names_inv wildX wildY menuType menuNames));
      [exact Hrun| |].
    - exists []. split; [by rewrite app_nil_r|]. apply Forall_nil_2.
    - intros j t t' Ht Hrow.
      eapply (for_loop_inv_simple (wild_names_inv wildX wildY menuType menuNames));
        [exact Hrow|exact Ht|].
      intros k u u' Hu Hcell. cbv beta in Hcell.
      by eapply tryGenerateWildBlockName_inv. }
  destruct Hinv as (new & -> & Hall). exists new. split; [done|].
  rewrite Forall_forall in Hall. split; [done|].
  intros e1 e2 He1 He2.
  destruct (Hall e1 He1) as [Hn1 _]. destruct (Hall e2 He2) as [Hn2 _].
  rewrite Hn1 in Hn2. by injection Hn2.
Qed.

End BuildingNames.

(** *** Building names on a sample level *)

Definition sample_cityGen : CityGenData :=
  {| tavernPrefixes := (λ i, "Prefix" +:+ pretty i)%string <$> seqZ 0 23;
     tavernSuffixes := (λ i, "Suffix" +:+ pretty i)%string <$> seqZ 0 23;
     tavernMarineSuffixes := (λ i, "Marine" +:+ pretty i)%string <$> seqZ 0 23;
     equipmentPrefixes := (λ i, "%ct Store" +:+ pretty i)%string <$> seqZ 0 20;
     equipmentSuffixes := (λ i, "of %n " +:+ pretty i)%string <$> seqZ 0 10;
     templePrefixes := ["Temple A "; "Temple B "; "Temple C "]%string;
     temple1Suffixes := (λ i, "One" +:+ pretty i)%string <$> seqZ 0 5;
     temple2Suffixes := (λ i, "Two" +:+ pretty i)%string <$> seqZ 0 9;
     temple3Suffixes := (λ i, "Three" +:+ pretty i)%string <$> seqZ 0 10 |}.

Definition sample_cityDef : CityDefinition :=
  {| citySeed := 0x12345678;
     coastal := false;
     typeDisplayName := "Village";
     hasMainQuestTempleOverride := false;
     override_modelIndex := 0;
     override_suffixIndex := 0;
     override_menuNamesIndex := 0 |}.

Definition sample_getMenuType (menuID : Z) (isCity : bool) : MenuType.t :=
  if menuID =? 0 then MenuType.Tavern else MenuType.Other.

(** A 2 x 2 level, floor all over, with three walls carrying the *MENU
    texture of [sample_inf]. *)
Definition sample_menu_level : LevelData QArith_base.Q :=
  default emptyLevel
    (st ← readFLOR sample_mif sample_inf [0x0100; 0x0100; 0x0100; 0x0100] 2 2 emptyLevel;
     readMAP1 (H := Q_DoubleOps) (QArith_base.inject_Z 128) sample_inf City sample_tables
       [0x0404; 0; 0x0404; 0x0404] 2 2 st).

(** Draws that repeat the pair (1, 2) for the second tavern. *)
Definition repeating_script : list Z := [1; 2; 1; 2; 0; 1; 2; 2].

Definition sample_scan : option (NamesState (list Z) * list Z) :=
  scanNames (H := ScriptedRandom repeating_script) sample_cityGen sample_getMenuType
    (fun _ _ _ => "Nobody"%string) 0 sample_menu_level 10 sample_cityDef true 2 2
    MenuType.Tavern (mkNamesState repeating_script 0 []).

Example sample_scan_names :
  (λ r, (ns_menuNames r.1, r.2)) <$> sample_scan =
  Some ([((1, 1), "Prefix1 Suffix2"); ((0, 1), "Prefix0 Suffix1");
         ((0, 0), "Prefix2 Suffix2")]%string,
        [258; 1; 514]).
Proof. vm_compute. reflexivity. Qed.



(** *** The temple pass with a main-quest override *)

Definition temple_getMenuType (menuID : Z) (isCity : bool) : MenuType.t :=
  if menuID =? 0 then MenuType.Temple else MenuType.Other.

(** A city whose main-quest temple is the first entry of the name list and
    is named from the pair (1, 2). *)
Definition override_cityDef : CityDefinition :=
  {| citySeed := 0x12345678;
     coastal := false;
     typeDisplayName := "Village";
     hasMainQuestTempleOverride := true;
     override_modelIndex := 1;
     override_suffixIndex := 2;
     override_menuNamesIndex := 0 |}.

(** Draws that give the three temples the pairs (0, 1), (1, 2), (2, 3). *)
Definition temple_script : list Z := [0; 1; 1; 2; 2; 3].

Definition sample_temple_pass : option (NamesState (list Z)) :=
  generateNames (H := ScriptedRandom temple_script) sample_cityGen temple_getMenuType
    (fun _ _ _ => "Nobody"%string) 0 sample_menu_level 10 override_cityDef true 2 2
    (0, 0) MenuType.Temple (mkNamesState temple_script 0 []).

Example sample_temple_pass_names :
  ns_menuNames <$> sample_temple_pass =
  Some [((1, 1), "Temple B Two2"); ((0, 1), "Temple B Two2");
        ((0, 0), "Temple C Three3")]%string.
Proof. vm_compute. reflexivity. Qed.




Definition sample_wild_names : option (list (Int2 * string)) :=
  generateWildNames (H := LcgRandom) sample_cityGen sample_getMenuType
    sample_menu_level 63 63 MenuType.Tavern [].

Example sample_wild_names_value :
  sample_wild_names =
  Some [((1, 1), "Prefix19 Suffix8"); ((0, 1), "Prefix19 Suffix8");
        ((0, 0), "Prefix19 Suffix8")]%string.
Proof. vm_compute. reflexivity. Qed.

Lemma generateWildNames_same_name_witness :
  ∃ menuNames', sample_wild_names = Some menuNames' ∧ length menuNames' = 3%nat ∧
    ∀ e1 e2, e1 ∈ menuNames' → e2 ∈ menuNames' → e1.2 = e2.2.
Proof.
  destruct sample_wild_names as [menuNames'|] eqn:Hrun;
    [|vm_compute in Hrun; discriminate].
  exists menuNames'. split; [done|].
  destruct (generateWildNames_same_name (H := LcgRandom) sample_cityGen
              sample_getMenuType sample_menu_level 63 63 MenuType.Tavern []
              menuNames' Hrun) as (new & Heq & _ & Hsame).
  simpl in Heq. subst new. split; [|exact Hsame].
  vm_compute in Hrun. by injection Hrun as <-.
Defined.

